(** * Theme Park Waits swarm animation: a model of [theme_park_waits_swarm.cpp]

    The sketch drives a 64x32 LED matrix.  Flocks of "birds" fly in from the
    screen edges; a bird that passes over a pixel of the THEME PARK WAITS text
    captures it.  This development embeds the sketch function by function and
    states the properties of its design over that embedding.

    Conventions of the embedding:
    - [float] is IEEE-754 binary32, taken from the standard library's
      [SpecFloat] with [prec = 24] and [emax = 128]; every C operator is one
      correctly rounded operation;
    - [unsigned long] and [size_t] are 32 bits wide on the target (ESP32-S3),
      written as [Z] with the wrap-around spelled out;
    - [std::set<Position>] is a [gset Position], [std::vector<FlockBird>] a
      [list FlockBird];
    - what the sketch reads from its environment ([millis()], [random()]) is
      an explicit input of each frame; libm's [sin]/[cos] and the display
      library's [color565] are parameters of the model;
    - the [Serial] diagnostics are left out: they do not feed back into the
      state. *)

From Stdlib Require Import ZArith List Bool String Lia.
From Stdlib Require Import SpecFloat.
From Stdlib Require QArith.QArith_base QArith.Qround.
From stdpp Require Import base decidable countable gmap sets list sorting.

Local Open Scope Z_scope.

(** ** Single-precision arithmetic *)

Module F32.

Definition prec : Z := 24.
Definition emax : Z := 128.

Definition float : Type := spec_float.

Definition valid (x : float) : bool := valid_binary prec emax x.

Definition add : float -> float -> float := SFadd prec emax.
Definition sub : float -> float -> float := SFsub prec emax.
Definition mul : float -> float -> float := SFmul prec emax.
Definition div : float -> float -> float := SFdiv prec emax.
Definition sqrt : float -> float := SFsqrt prec emax.
Definition fabs : float -> float := SFabs.

Definition ltb : float -> float -> bool := SFltb.
Definition leb : float -> float -> bool := SFleb.
Definition gtb (x y : float) : bool := SFltb y x.
Definition geb (x y : float) : bool := SFleb y x.

Definition is_nan (x : float) : bool :=
  match x with S754_nan => true | _ => false end.


Definition is_finite (x : float) : bool :=
  match x with S754_zero _ | S754_finite _ _ _ => true | _ => false end.


(** Conversion of an integer to [float] (round to nearest, ties to even). *)
Definition of_Z (z : Z) : float := binary_normalize prec emax z 0 false.

(** A decimal literal [n/d] written with an [f] suffix: the nearest float. *)
Definition lit (n d : Z) : float := div (of_Z n) (of_Z d).

Definition zero : float := S754_zero false.
Definition one : float := of_Z 1.

(** Integral part of a finite float, towards zero; [None] for NaN and
    infinities. *)
Definition trunc (x : float) : option Z :=
  match x with
  | S754_zero _ => Some 0
  | S754_finite s m e =>
      let a := match e with
               | Zneg p => Z.pos m / 2 ^ Z.pos p
               | _ => Z.pos m * 2 ^ e
               end in
      Some (if s then - a else a)
  | _ => None
  end.

(** [(int)x]: the integral part when it fits 32 signed bits, otherwise the
    conversion is undefined. *)
Definition to_int (x : float) : option Z :=
  match trunc x with
  | Some n => if (- 2 ^ 31 <=? n) && (n <? 2 ^ 31) then Some n else None
  | None => None
  end.

(** [(uint8_t)x]: the integral part when it fits 8 unsigned bits, otherwise
    the conversion is undefined. *)
Definition to_uint8 (x : float) : option Z :=
  match trunc x with
  | Some n => if (0 <=? n) && (n <? 256) then Some n else None
  | None => None
  end.

(** C's [round]: to the nearest integral value, halfway cases away from
    zero.  The result is again a float. *)
Definition round (x : float) : float :=
  match x with
  | S754_finite s m (Zneg p) =>
      let q := (Z.pos m + 2 ^ (Z.pos p - 1)) / 2 ^ Z.pos p in
      binary_normalize prec emax (if s then - q else q) 0 s
  | _ => x
  end.

(** C's [fmod]: [x - n*y] with [n] the quotient truncated towards zero.  The
    result is exact and carries the sign of [x]. *)
Definition fmod (x y : float) : float :=
  match x, y with
  | S754_nan, _ | _, S754_nan => S754_nan
  | S754_infinity _, _ => S754_nan
  | _, S754_zero _ => S754_nan
  | S754_zero _, _ => x
  | S754_finite _ _ _, S754_infinity _ => x
  | S754_finite sx mx ex, S754_finite _ my ey =>
      let ez := Z.min ex ey in
      let r := Z.rem (Z.pos mx * 2 ^ (ex - ez)) (Z.pos my * 2 ^ (ey - ez)) in
      binary_normalize prec emax (if sx then - r else r) ez sx
  end.

End F32.

Abbreviation float := F32.float.

(** ** Data model *)

(** [struct Color]: three 8-bit channels. *)
Record Color := mkColor { r : Z; g : Z; b : Z }.

(** [struct Position]: an integer pixel coordinate. *)
Record Position := mkPosition { px : Z; py : Z }.

(** [Position::operator<]: lexicographic, [x] first. *)
Definition Position_ltb (a c : Position) : bool :=
  (px a <? px c) || ((px a =? px c) && (py a <? py c)).

(** [Position::operator==]. *)
Definition Position_eqb (a c : Position) : bool :=
  (px a =? px c) && (py a =? py c).

#[global] Instance Position_eq_dec : EqDecision Position.
Proof. solve_decision. Defined.

#[global] Instance Position_countable : Countable Position :=
  inj_countable' (fun p => (px p, py p)) (fun q => mkPosition q.1 q.2)
    ltac:(by intros []).

(** [struct Vector2D]. *)
Record Vector2D := mkVector2D { vx : float; vy : float }.

Module Vec.

Definition add (a c : Vector2D) : Vector2D :=
  mkVector2D (F32.add (vx a) (vx c)) (F32.add (vy a) (vy c)).

Definition sub (a c : Vector2D) : Vector2D :=
  mkVector2D (F32.sub (vx a) (vx c)) (F32.sub (vy a) (vy c)).

Definition scale (a : Vector2D) (k : float) : Vector2D :=
  mkVector2D (F32.mul (vx a) k) (F32.mul (vy a) k).

Definition divide (a : Vector2D) (k : float) : Vector2D :=
  mkVector2D (F32.div (vx a) k) (F32.div (vy a) k).

Definition magnitude (a : Vector2D) : float :=
  F32.sqrt (F32.add (F32.mul (vx a) (vx a)) (F32.mul (vy a) (vy a))).

Definition zero : Vector2D := mkVector2D (F32.of_Z 0) (F32.of_Z 0).

Definition normalize (a : Vector2D) : Vector2D :=
  let mag := magnitude a in
  if F32.gtb mag (F32.of_Z 0)
  then mkVector2D (F32.div (vx a) mag) (F32.div (vy a) mag)
  else zero.

End Vec.

(** ** Colour model *)

(** The body of [hsvToRgb] up to the three channel values that are cast to
    [uint8_t]. *)
Definition hsvChannels (h s v : float) : float * float * float :=
  let h := F32.fmod h F32.one in
  let c := F32.mul v s in
  let x := F32.mul c
             (F32.sub F32.one
                (F32.fabs (F32.sub (F32.fmod (F32.mul h (F32.of_Z 6)) (F32.of_Z 2))
                                   F32.one))) in
  let m := F32.sub v c in
  let '(r, g, b) :=
    if F32.ltb h (F32.lit 1 6) then (c, x, F32.of_Z 0)
    else if F32.ltb h (F32.lit 2 6) then (x, c, F32.of_Z 0)
    else if F32.ltb h (F32.lit 3 6) then (F32.of_Z 0, c, x)
    else if F32.ltb h (F32.lit 4 6) then (F32.of_Z 0, x, c)
    else if F32.ltb h (F32.lit 5 6) then (x, F32.of_Z 0, c)
    else (c, F32.of_Z 0, x) in
  (F32.mul (F32.add r m) (F32.of_Z 255),
   F32.mul (F32.add g m) (F32.of_Z 255),
   F32.mul (F32.add b m) (F32.of_Z 255)).

(** [hsvToRgb].  The three casts to [uint8_t] are undefined when the value
    does not fit, so the result is optional. *)
Definition hsvToRgb (h s v : float) : option Color :=
  let '(fr, fg, fb) := hsvChannels h s v in
  match F32.to_uint8 fr, F32.to_uint8 fg, F32.to_uint8 fb with
  | Some r8, Some g8, Some b8 => Some (mkColor r8 g8 b8)
  | _, _, _ => None
  end.

(** [getDynamicFlockColor]. *)
Definition getDynamicFlockColor (timeElapsed : float) (birdIndex : Z) : option Color :=
  let hueOffset :=
    F32.fmod (F32.add (F32.mul timeElapsed (F32.lit 5 10))
                      (F32.mul (F32.of_Z birdIndex) (F32.lit 1 10)))
             F32.one in
  hsvToRgb hueOffset (F32.lit 9 10) (F32.lit 8 10).

(** [getDynamicTextColor]. *)
Definition getDynamicTextColor (timeElapsed : float) (pixelPos : Position) : option Color :=
  let positionOffset :=
    F32.mul (F32.add (F32.div (F32.of_Z (px pixelPos)) (F32.of_Z 64))
                     (F32.div (F32.of_Z (py pixelPos)) (F32.of_Z 32)))
            (F32.lit 3 10) in
  let hue := F32.fmod (F32.add (F32.mul timeElapsed (F32.lit 2 10)) positionOffset)
                      F32.one in
  hsvToRgb hue F32.one F32.one.

(** ** Target mask *)

(** [pixels.insert(Position(x, y))]. *)
Definition insert_at (x y : Z) (pixels : gset Position) : gset Position :=
  {[ mkPosition x y ]} ∪ pixels.

(** [for (int i = lo; i <= hi; i++) body]. *)
Definition for_range {A : Type} (lo hi : Z) (body : Z -> A -> A) (acc : A) : A :=
  foldl (fun acc i => body i acc) acc (seqZ lo (hi - lo + 1)).

(** [getThemeParkWaitsPixels]: the strokes of the two text lines, in the
    order of the source. *)
Definition getThemeParkWaitsPixels : gset Position :=
  let pixels : gset Position := ∅ in
  (* THEME PARK - First line (8 pixels tall) *)
  (* T (x=4, y=3) - 8 LEDs tall *)
  let pixels := for_range 4 8 (fun x => insert_at x 3) pixels in
  let pixels := for_range 4 10 (fun y => insert_at 6 y) pixels in
  (* H (x=10, y=3) - 8 LEDs tall *)
  let pixels := for_range 3 10 (fun y => insert_at 10 y) pixels in
  let pixels := for_range 3 10 (fun y => insert_at 14 y) pixels in
  let pixels := for_range 11 13 (fun x => insert_at x 6) pixels in
  (* E (x=16, y=3) - 8 LEDs tall *)
  let pixels := for_range 3 10 (fun y => insert_at 16 y) pixels in
  let pixels := for_range 16 19 (fun x => insert_at x 3) pixels in
  let pixels := for_range 16 18 (fun x => insert_at x 6) pixels in
  let pixels := for_range 16 19 (fun x => insert_at x 10) pixels in
  (* M (x=22, y=3) - 8 LEDs tall *)
  let pixels := for_range 3 10 (fun y => insert_at 22 y) pixels in
  let pixels := for_range 3 10 (fun y => insert_at 27 y) pixels in
  let pixels := insert_at 23 4 pixels in
  let pixels := insert_at 24 5 pixels in
  let pixels := insert_at 25 5 pixels in
  let pixels := insert_at 26 4 pixels in
  (* E (x=29, y=3) - 8 LEDs tall *)
  let pixels := for_range 3 10 (fun y => insert_at 29 y) pixels in
  let pixels := for_range 29 32 (fun x => insert_at x 3) pixels in
  let pixels := for_range 29 31 (fun x => insert_at x 6) pixels in
  let pixels := for_range 29 32 (fun x => insert_at x 10) pixels in
  (* P (x=36, y=3) - 8 LEDs tall *)
  let pixels := for_range 3 10 (fun y => insert_at 36 y) pixels in
  let pixels := for_range 36 39 (fun x => insert_at x 3) pixels in
  let pixels := for_range 36 39 (fun x => insert_at x 6) pixels in
  let pixels := insert_at 39 4 pixels in
  let pixels := insert_at 39 5 pixels in
  (* A (x=42, y=3) - 8 LEDs tall *)
  let pixels := for_range 4 10 (fun y => insert_at 42 y) pixels in
  let pixels := for_range 4 10 (fun y => insert_at 46 y) pixels in
  let pixels := for_range 43 45 (fun x => insert_at x 3) pixels in
  let pixels := for_range 42 46 (fun x => insert_at x 6) pixels in
  (* R (x=48, y=3) - 8 LEDs tall *)
  let pixels := for_range 3 10 (fun y => insert_at 48 y) pixels in
  let pixels := for_range 48 51 (fun x => insert_at x 3) pixels in
  let pixels := for_range 48 51 (fun x => insert_at x 6) pixels in
  let pixels := insert_at 51 4 pixels in
  let pixels := insert_at 51 5 pixels in
  let pixels := insert_at 50 7 pixels in
  let pixels := insert_at 51 8 pixels in
  let pixels := insert_at 52 9 pixels in
  let pixels := insert_at 53 10 pixels in
  (* K (x=54, y=3) - 8 LEDs tall *)
  let pixels := for_range 3 10 (fun y => insert_at 54 y) pixels in
  let pixels := insert_at 57 3 pixels in
  let pixels := insert_at 56 4 pixels in
  let pixels := insert_at 55 5 pixels in
  let pixels := insert_at 55 6 pixels in
  let pixels := insert_at 56 7 pixels in
  let pixels := insert_at 57 8 pixels in
  let pixels := insert_at 58 9 pixels in
  let pixels := insert_at 59 10 pixels in
  (* WAITS - Second line (16 pixels tall, moved right by 3 LEDs) *)
  (* W (x=5, y=15) - exact pattern from screenshot *)
  (* Left outer edge *)
  let pixels := for_range 15 30 (fun y pixels => insert_at 6 y (insert_at 5 y pixels)) pixels in
  (* Right outer edge *)
  let pixels := for_range 15 30 (fun y pixels => insert_at 14 y (insert_at 13 y pixels)) pixels in
  (* Middle V of W *)
  let pixels := for_range 7 8 (fun x => insert_at x 28) pixels in
  let pixels := for_range 7 8 (fun x => insert_at x 27) pixels in
  let pixels := for_range 11 12 (fun x => insert_at x 28) pixels in
  let pixels := for_range 11 12 (fun x => insert_at x 27) pixels in
  let pixels := for_range 23 26 (fun y => insert_at 9 y) pixels in
  let pixels := for_range 23 26 (fun y => insert_at 10 y) pixels in
  (* A (x=16, y=15) - 10 LEDs wide, 16 pixels tall *)
  let pixels := for_range 17 30 (fun y => insert_at 16 y) pixels in
  let pixels := for_range 17 30 (fun y => insert_at 17 y) pixels in
  let pixels := for_range 17 30 (fun y => insert_at 24 y) pixels in
  let pixels := for_range 17 30 (fun y => insert_at 25 y) pixels in
  let pixels := for_range 18 23 (fun x => insert_at x 15) pixels in
  let pixels := for_range 18 23 (fun x => insert_at x 16) pixels in
  let pixels := for_range 16 25 (fun x => insert_at x 22) pixels in
  let pixels := for_range 16 25 (fun x => insert_at x 23) pixels in
  (* I (x=27, y=15) - 10 LEDs wide, 16 pixels tall *)
  let pixels := for_range 27 36 (fun x => insert_at x 15) pixels in
  let pixels := for_range 27 36 (fun x => insert_at x 16) pixels in
  let pixels := for_range 27 36 (fun x => insert_at x 29) pixels in
  let pixels := for_range 27 36 (fun x => insert_at x 30) pixels in
  let pixels := for_range 15 30 (fun y => insert_at 31 y) pixels in
  let pixels := for_range 15 30 (fun y => insert_at 32 y) pixels in
  (* T (x=38, y=15) - 10 LEDs wide, 16 pixels tall *)
  let pixels := for_range 38 47 (fun x => insert_at x 15) pixels in
  let pixels := for_range 38 47 (fun x => insert_at x 16) pixels in
  let pixels := for_range 15 30 (fun y => insert_at 42 y) pixels in
  let pixels := for_range 15 30 (fun y => insert_at 43 y) pixels in
  (* S (x=49, y=15) - 10 LEDs wide, 16 pixels tall *)
  let pixels := for_range 49 58 (fun x => insert_at x 15) pixels in
  let pixels := for_range 49 58 (fun x => insert_at x 16) pixels in
  let pixels := for_range 17 21 (fun y => insert_at 49 y) pixels in
  let pixels := for_range 17 21 (fun y => insert_at 50 y) pixels in
  let pixels := for_range 49 58 (fun x => insert_at x 22) pixels in
  let pixels := for_range 49 58 (fun x => insert_at x 23) pixels in
  let pixels := for_range 24 28 (fun y => insert_at 57 y) pixels in
  let pixels := for_range 24 28 (fun y => insert_at 58 y) pixels in
  let pixels := for_range 49 58 (fun x => insert_at x 29) pixels in
  let pixels := for_range 49 58 (fun x => insert_at x 30) pixels in
  pixels.

(** ** Environment *)

(** Values stored in an [unsigned long] or a [size_t]. *)
Definition u32 (z : Z) : Z := z mod 2 ^ 32.

(** Conversion of a 32-bit unsigned value to [int]. *)
Definition to_i32 (z : Z) : Z :=
  let w := u32 z in if w <? 2 ^ 31 then w else w - 2 ^ 32.

(** The raw values behind the successive calls of Arduino's [random]. *)
Definition Dice : Type := nat -> Z.

(** Code that draws random numbers threads the remaining supply. *)
Definition Rand (A : Type) : Type := Dice -> A * Dice.

Definition rand_ret {A : Type} (a : A) : Rand A := fun d => (a, d).

Definition rand_bind {A B : Type} (m : Rand A) (k : A -> Rand B) : Rand B :=
  fun d => let '(a, d') := m d in k a d'.

Notation "x <~ m ;; k" := (rand_bind m (fun x => k))
  (at level 100, m at next level, right associativity).

Fixpoint rand_mapM {A B : Type} (f : A -> Rand B) (l : list A) : Rand (list B) :=
  match l with
  | [] => rand_ret []
  | a :: l' => c <~ f a ;; cs <~ rand_mapM f l' ;; rand_ret (c :: cs)
  end.

(** Arduino's [random(howsmall, howbig)]: a value of [howsmall .. howbig-1],
    obtained by reducing the next raw value modulo the width of the range. *)
Definition random (howsmall howbig : Z) : Rand Z :=
  fun d => (howsmall + d 0%nat mod (howbig - howsmall), fun n => d (S n)).

(** ** Swarm unit *)

Definition WIDTH : Z := 64.
Definition HEIGHT : Z := 32.

(** [class FlockBird]. *)
Record FlockBird := mkFlockBird {
  position : Vector2D;
  velocity : Vector2D;
  phase : float;
  speedMultiplier : float;
  separationRadius : float
}.

(** The constructor [FlockBird(x, y, direction)]: the members are
    initialised in their order of declaration, then the body sets the
    velocity. *)
Definition FlockBird_new (x y : float) (direction : Vector2D) : Rand FlockBird :=
  p <~ random 0 628 ;;
  s <~ random 70 130 ;;
  q <~ random 200 400 ;;
  a <~ random 80 120 ;;
  c <~ random 80 120 ;;
  rand_ret
    {| position := mkVector2D x y;
       velocity := mkVector2D
                     (F32.div (F32.mul (vx direction) (F32.of_Z a)) (F32.of_Z 100))
                     (F32.div (F32.mul (vy direction) (F32.of_Z c)) (F32.of_Z 100));
       phase := F32.div (F32.of_Z p) (F32.of_Z 100);
       speedMultiplier := F32.div (F32.of_Z s) (F32.of_Z 100);
       separationRadius := F32.div (F32.of_Z q) (F32.of_Z 100) |}.

(** [(int)x] applied to both rounded coordinates; undefined when a
    coordinate does not fit an [int]. *)
Definition getPixelPos (bird : FlockBird) : option Position :=
  match F32.to_int (F32.round (vx (position bird))),
        F32.to_int (F32.round (vy (position bird))) with
  | Some x, Some y => Some (mkPosition x y)
  | _, _ => None
  end.

Definition isOnScreen (bird : FlockBird) : bool :=
  F32.geb (vx (position bird)) (F32.of_Z 0)
  && F32.ltb (vx (position bird)) (F32.of_Z WIDTH)
  && F32.geb (vy (position bird)) (F32.of_Z 0)
  && F32.ltb (vy (position bird)) (F32.of_Z HEIGHT).

(** The birds a rule looks at: every element of the flock but the one at
    index [i] (the [&other == this] test). *)
Definition others (i : nat) (flock : list FlockBird) : list FlockBird :=
  take i flock ++ drop (S i) flock.

Definition separationRule (self : FlockBird) (neighbours : list FlockBird) : Vector2D :=
  let '(steer, count) :=
    foldl (fun '(steer, count) other =>
             let diff := Vec.sub (position self) (position other) in
             let distance := Vec.magnitude diff in
             if F32.gtb distance (F32.of_Z 0) && F32.ltb distance (separationRadius self)
             then (Vec.add steer (Vec.scale (Vec.normalize diff) (F32.div F32.one distance)),
                   count + 1)
             else (steer, count))
          (Vec.zero, 0) neighbours in
  if count >? 0 then Vec.divide steer (F32.of_Z count) else steer.

Definition alignmentRule (self : FlockBird) (neighbours : list FlockBird) : Vector2D :=
  let neighborDistance := F32.of_Z 8 in
  let '(avgVel, count) :=
    foldl (fun '(avgVel, count) other =>
             let diff := Vec.sub (position self) (position other) in
             let distance := Vec.magnitude diff in
             if F32.ltb distance neighborDistance
             then (Vec.add avgVel (velocity other), count + 1)
             else (avgVel, count))
          (Vec.zero, 0) neighbours in
  if count >? 0
  then Vec.sub (Vec.divide avgVel (F32.of_Z count)) (velocity self)
  else Vec.zero.

Definition cohesionRule (self : FlockBird) (neighbours : list FlockBird) : Vector2D :=
  let neighborDistance := F32.of_Z 12 in
  let '(center, count) :=
    foldl (fun '(center, count) other =>
             let diff := Vec.sub (position self) (position other) in
             let distance := Vec.magnitude diff in
             if F32.ltb distance neighborDistance
             then (Vec.add center (position other), count + 1)
             else (center, count))
          (Vec.zero, 0) neighbours in
  if count >? 0
  then Vec.scale (Vec.sub (Vec.divide center (F32.of_Z count)) (position self))
                 (F32.lit 1 100)
  else Vec.zero.

(** [attractionCenter] is a pointer that may be null. *)
Definition attractionRule (self : FlockBird) (attractionCenter : option Vector2D) : Vector2D :=
  match attractionCenter with
  | None => Vec.zero
  | Some center =>
      let diff := Vec.sub center (position self) in
      let distance := Vec.magnitude diff in
      if F32.gtb distance (F32.of_Z 0)
      then Vec.scale (Vec.normalize diff) (F32.lit 5 10)
      else Vec.zero
  end.

(** ** Flocking update, spawning and the frame loop *)

(** What the sketch sends to the display. *)
Inductive Gfx :=
| FillScreen (c : Z)
| DrawPixel (x y c : Z)
| Show.

(** The global variables of the sketch. *)
Record State := mkState {
  targetPixels : gset Position;
  capturedPixels : gset Position;
  flock : list FlockBird;
  startTime : Z;
  lastUpdate : Z;
  lastSpawnTime : Z;
  currentDirectionIdx : Z;
  animationComplete : bool;
  completionTime : Z
}.

(** What one call of [loop] reads from outside: [millis()] on entry,
    [millis()] inside the update of the bird at each index, and the supply
    of random numbers. *)
Record Frame := mkFrame {
  now : Z;
  now_bird : nat -> Z;
  dice : Dice
}.

Definition directions : list string :=
  ["left"; "right"; "top"; "bottom";
   "top_left"; "top_right"; "bottom_left"; "bottom_right"]%string.

Definition numDirections : Z := 8.

Definition spawnInterval : float := F32.of_Z 3.

(** The entry point and flight direction chosen by the first part of
    [createFlockFromDirection]. *)
Definition entryPoint (direction : string) : Rand (Z * Z * Vector2D) :=
  if String.eqb direction "left" then
    k <~ random (-50) 50 ;;
    rand_ret (-10, 16, mkVector2D (F32.of_Z 2) (F32.div (F32.of_Z k) (F32.of_Z 100)))
  else if String.eqb direction "right" then
    k <~ random (-50) 50 ;;
    rand_ret (74, 16, mkVector2D (F32.of_Z (-2)) (F32.div (F32.of_Z k) (F32.of_Z 100)))
  else if String.eqb direction "top" then
    k <~ random (-50) 50 ;;
    rand_ret (32, -10, mkVector2D (F32.div (F32.of_Z k) (F32.of_Z 100)) (F32.of_Z 2))
  else if String.eqb direction "bottom" then
    k <~ random (-50) 50 ;;
    rand_ret (32, 42, mkVector2D (F32.div (F32.of_Z k) (F32.of_Z 100)) (F32.of_Z (-2)))
  else
    rand_ret (32, 16, mkVector2D F32.one F32.one).

(** The body of the formation loop of [createFlockFromDirection] for the
    bird of index [i]. *)
Definition formationBird (baseX baseY : Z) (flightDir : Vector2D) (i : Z) : Rand FlockBird :=
  let row := Z.quot i 8 in
  let col := Z.rem i 8 in
  jx <~ random (-100) 100 ;;
  let offsetX := F32.add (F32.of_Z ((col - 4) * 2)) (F32.div (F32.of_Z jx) (F32.of_Z 100)) in
  jy <~ random (-100) 100 ;;
  let offsetY := F32.add (F32.of_Z (row * 3)) (F32.div (F32.of_Z jy) (F32.of_Z 100)) in
  let birdX := F32.add (F32.of_Z baseX) offsetX in
  let birdY := F32.add (F32.of_Z baseY) offsetY in
  FlockBird_new birdX birdY flightDir.

(** [createFlockFromDirection]. *)
Definition createFlockFromDirection (numBirds : Z) (direction : string) : Rand (list FlockBird) :=
  e <~ entryPoint direction ;;
  let '(baseX, baseY, flightDir) := e in
  rand_mapM (formationBird baseX baseY flightDir) (seqZ 0 numBirds).

(** The lambda handed to [std::remove_if] at the end of a frame. *)
Definition flownOff (bird : FlockBird) : bool :=
  F32.ltb (vx (position bird)) (F32.of_Z (-25))
  || F32.gtb (vx (position bird)) (F32.of_Z 89)
  || F32.ltb (vy (position bird)) (F32.of_Z (-25))
  || F32.gtb (vy (position bird)) (F32.of_Z 57).

(** [flock.erase(std::remove_if(...), flock.end())]. *)
Definition removeFlownOff (flock : list FlockBird) : list FlockBird :=
  List.filter (fun bird => negb (flownOff bird)) flock.

(** The body of the "Check for LED lighting" loop for one bird.  The pixel
    position of a bird that passes [isOnScreen] is defined (lemma
    [onscreen_pixel_defined] below), so the last branch of the [match] only
    completes the definition. *)
Definition lightLed (targetPixels : gset Position) (capturedPixels : gset Position)
    (bird : FlockBird) : gset Position :=
  if isOnScreen bird then
    match getPixelPos bird with
    | Some pixelPos =>
        if bool_decide (pixelPos ∈ targetPixels) && negb (bool_decide (pixelPos ∈ capturedPixels))
        then {[ pixelPos ]} ∪ capturedPixels
        else capturedPixels
    | None => capturedPixels
    end
  else capturedPixels.

Definition lightLeds (targetPixels : gset Position) (flock : list FlockBird)
    (capturedPixels : gset Position) : gset Position :=
  foldl (lightLed targetPixels) capturedPixels flock.

(** The elements of a [std::set<Position>] in iteration order. *)
Definition inOrder (s : gset Position) : list Position :=
  merge_sort (fun a c => Is_true (negb (Position_ltb c a))) (elements s).

Definition min_int (a c : Z) : Z := if c <? a then c else a.

Section Sketch.

(** libm's [sin] and [cos] at single precision and the display driver's
    [color565] are external to the sketch. *)
Variables (sinf cosf : float -> float) (color565 : Z -> Z -> Z -> Z).

(** The first half of [FlockBird::updateFlocking], called on the bird at
    index [i] of [flock]: the velocity after the flocking forces and the
    wing-flapping motion; [ms] is what [millis()] returns. *)
Definition steeredVelocity (flock : list FlockBird) (i : nat) (self : FlockBird)
    (attractionCenter : option Vector2D) (ms : Z) : Vector2D :=
  let separation := separationRule self (others i flock) in
  let alignment := alignmentRule self (others i flock) in
  let cohesion := cohesionRule self (others i flock) in
  let attraction := attractionRule self attractionCenter in
  let velocity :=
    Vec.add (Vec.add (Vec.add (Vec.add (velocity self)
                                       (Vec.scale separation (F32.lit 15 100)))
                              (Vec.scale alignment (F32.lit 1 10)))
                     (Vec.scale cohesion (F32.lit 5 100)))
            (Vec.scale attraction (F32.lit 3 10)) in
  let currentTime := F32.div (F32.of_Z (u32 ms)) (F32.of_Z 1000) in
  let velocity :=
    mkVector2D
      (F32.add (vx velocity)
         (F32.mul (F32.mul (F32.lit 5 100)
                     (sinf (F32.add (phase self) (F32.mul currentTime (F32.of_Z 8)))))
                  (speedMultiplier self)))
      (vy velocity) in
  mkVector2D
    (vx velocity)
    (F32.add (vy velocity)
       (F32.mul (F32.mul (F32.lit 3 100)
                   (cosf (F32.add (phase self) (F32.mul currentTime (F32.of_Z 6)))))
                (speedMultiplier self))).

(** "Limit velocity". *)
Definition limitVelocity (velocity : Vector2D) : Vector2D :=
  let maxVel := F32.of_Z 3 in
  let velMag := Vec.magnitude velocity in
  if F32.gtb velMag maxVel then Vec.scale (Vec.normalize velocity) maxVel
  else velocity.

(** [FlockBird::updateFlocking]. *)
Definition updateFlocking (flock : list FlockBird) (i : nat) (self : FlockBird)
    (attractionCenter : option Vector2D) (ms : Z) : FlockBird :=
  let velocity := limitVelocity (steeredVelocity flock i self attractionCenter ms) in
  {| position := Vec.add (position self) (Vec.scale velocity (F32.lit 4 10));
     velocity := velocity;
     phase := phase self;
     speedMultiplier := speedMultiplier self;
     separationRadius := separationRadius self |}.

(** [for (auto& bird : flock) bird.updateFlocking(flock, ..., nullptr)]: the
    birds are updated in place, one after the other, so a bird sees the new
    state of those before it. *)
Definition updateBirds (ticks : nat -> Z) (flock : list FlockBird) : list FlockBird :=
  foldl (fun flock i =>
           match flock !! i with
           | Some bird => <[ i := updateFlocking flock i bird None (ticks i) ]> flock
           | None => flock
           end)
        flock (seq 0 (length flock)).

(** The spawning block of [loop]. *)
Definition spawnDue (st : State) (currentTime remainingLeds : Z) : bool :=
  let spawnIntervalMs := F32.mul spawnInterval (F32.of_Z 1000) in
  (remainingLeds >? 0)
  && F32.gtb (F32.of_Z (u32 (u32 (currentTime - startTime st) - lastSpawnTime st)))
             spawnIntervalMs
  && (Z.of_nat (length (flock st)) <? 200).

Definition spawnWave (st : State) (currentTime remainingLeds : Z) (d : Dice) : State :=
  let birdsToSpawn := min_int 50 remainingLeds in
  let direction := nth (Z.to_nat (currentDirectionIdx st)) directions EmptyString in
  let newFlock := fst (createFlockFromDirection birdsToSpawn direction d) in
  {| targetPixels := targetPixels st;
     capturedPixels := capturedPixels st;
     flock := flock st ++ newFlock;
     startTime := startTime st;
     lastUpdate := lastUpdate st;
     lastSpawnTime := u32 (currentTime - startTime st);
     currentDirectionIdx := Z.rem (currentDirectionIdx st + 1) numDirections;
     animationComplete := animationComplete st;
     completionTime := completionTime st |}.

(** [int remainingLeds = targetPixels.size() - capturedPixels.size()]. *)
Definition remainingLeds (st : State) : Z :=
  to_i32 (Z.of_nat (size (targetPixels st)) - Z.of_nat (size (capturedPixels st))).

(** "Spawn new flock if needed". *)
Definition spawnBlock (st : State) (currentTime : Z) (d : Dice) : State :=
  if spawnDue st currentTime (remainingLeds st)
  then spawnWave st currentTime (remainingLeds st) d else st.

(** The block of [loop] guarded by [!textComplete]. *)
Definition flockingStep (st : State) (currentTime : Z) (f : Frame) : State :=
  let st := spawnBlock st currentTime (dice f) in
  let flock1 := updateBirds (now_bird f) (flock st) in
  let captured := lightLeds (targetPixels st) flock1 (capturedPixels st) in
  {| targetPixels := targetPixels st;
     capturedPixels := captured;
     flock := removeFlownOff flock1;
     startTime := startTime st;
     lastUpdate := lastUpdate st;
     lastSpawnTime := lastSpawnTime st;
     currentDirectionIdx := currentDirectionIdx st;
     animationComplete := animationComplete st;
     completionTime := completionTime st |}.

(** The drawing part of [loop]: the calls between [fillScreen] and [show].
    It is undefined when a colour conversion or a pixel position is. *)
Definition drawText (timeElapsed : float) (capturedPixels : gset Position) : option (list Gfx) :=
  mapM (fun pixel =>
          match getDynamicTextColor timeElapsed pixel with
          | Some textColor =>
              Some (DrawPixel (px pixel) (py pixel)
                      (color565 (r textColor) (g textColor) (b textColor)))
          | None => None
          end)
       (inOrder capturedPixels).

Definition drawBird (timeElapsed : float) (ib : nat * FlockBird) : option (list Gfx) :=
  let '(i, bird) := ib in
  if isOnScreen bird then
    match getPixelPos bird, getDynamicFlockColor timeElapsed (to_i32 (Z.of_nat i)) with
    | Some birdPos, Some birdColor =>
        Some [DrawPixel (px birdPos) (py birdPos)
                (color565 (r birdColor) (g birdColor) (b birdColor))]
    | _, _ => None
    end
  else Some [].

Definition drawBirds (timeElapsed : float) (flock : list FlockBird) : option (list Gfx) :=
  match mapM (drawBird timeElapsed) (imap (fun i bird => (i, bird)) flock) with
  | Some calls => Some (concat calls)
  | None => None
  end.

Definition render (timeElapsed : float) (st : State) : option (list Gfx) :=
  match drawText timeElapsed (capturedPixels st), drawBirds timeElapsed (flock st) with
  | Some text, Some birds => Some (FillScreen 0 :: text ++ birds ++ [Show])
  | _, _ => None
  end.

Definition set_lastUpdate (t : Z) (st : State) : State :=
  {| targetPixels := targetPixels st;
     capturedPixels := capturedPixels st;
     flock := flock st;
     startTime := startTime st;
     lastUpdate := t;
     lastSpawnTime := lastSpawnTime st;
     currentDirectionIdx := currentDirectionIdx st;
     animationComplete := animationComplete st;
     completionTime := completionTime st |}.

Definition set_completionTime (t : Z) (st : State) : State :=
  {| targetPixels := targetPixels st;
     capturedPixels := capturedPixels st;
     flock := flock st;
     startTime := startTime st;
     lastUpdate := lastUpdate st;
     lastSpawnTime := lastSpawnTime st;
     currentDirectionIdx := currentDirectionIdx st;
     animationComplete := animationComplete st;
     completionTime := t |}.

Definition set_animationComplete (c : bool) (st : State) : State :=
  {| targetPixels := targetPixels st;
     capturedPixels := capturedPixels st;
     flock := flock st;
     startTime := startTime st;
     lastUpdate := lastUpdate st;
     lastSpawnTime := lastSpawnTime st;
     currentDirectionIdx := currentDirectionIdx st;
     animationComplete := c;
     completionTime := completionTime st |}.

(** [capturedPixels.size() >= targetPixels.size()]. *)
Definition textComplete (st : State) : bool :=
  Z.of_nat (size (targetPixels st)) <=? Z.of_nat (size (capturedPixels st)).

(** The block of [loop] that records the completion time. *)
Definition noteCompletion (currentTime : Z) (st : State) : State :=
  if textComplete st && (completionTime st =? 0)
  then set_completionTime currentTime st else st.

(** The test that ends the program one second after completion. *)
Definition finished (currentTime : Z) (st : State) : bool :=
  negb (completionTime st =? 0) && (1000 <=? u32 (currentTime - completionTime st)).

(** [loop]: the new state and what is sent to the display ([None] when the
    drawing is undefined). *)
Definition loop (st : State) (f : Frame) : State * option (list Gfx) :=
  let currentTime := u32 (now f) in
  if u32 (currentTime - lastUpdate st) <? 50 then (st, Some [])
  else
    let timeElapsed :=
      F32.div (F32.of_Z (u32 (currentTime - startTime st))) (F32.of_Z 1000) in
    let st := set_lastUpdate currentTime st in
    let complete := textComplete st in
    let st := noteCompletion currentTime st in
    if finished currentTime st
    then (set_animationComplete true st, Some [FillScreen 0; Show])
    else
      let st := if negb complete then flockingStep st currentTime f else st in
      (st, render timeElapsed st).

(** The globals as initialised at load time. *)
Definition boot : State :=
  {| targetPixels := ∅;
     capturedPixels := ∅;
     flock := [];
     startTime := 0;
     lastUpdate := 0;
     lastSpawnTime := 0;
     currentDirectionIdx := 0;
     animationComplete := false;
     completionTime := 0 |}.

(** [setup], for a display that initialises; [ms] is what [millis()]
    returns. *)
Definition setup (ms : Z) : State * list Gfx :=
  ({| targetPixels := getThemeParkWaitsPixels;
      capturedPixels := capturedPixels boot;
      flock := flock boot;
      startTime := u32 ms;
      lastUpdate := u32 ms;
      lastSpawnTime := lastSpawnTime boot;
      currentDirectionIdx := currentDirectionIdx boot;
      animationComplete := animationComplete boot;
      completionTime := completionTime boot |},
   [FillScreen 0; Show]).

(** The state reached from [st] by one call of [loop] per frame. *)
Definition play (st : State) (frames : list Frame) : State :=
  foldl (fun st f => fst (loop st f)) st frames.

(** The state after [setup] and one call of [loop] per frame. *)
Definition run (ms : Z) (frames : list Frame) : State :=
  play (fst (setup ms)) frames.

End Sketch.

(** ** Vocabulary of the specification *)

(** A position inside the extended bounds: at most 25 beyond each edge of
    the 64x32 matrix. *)
Definition withinMargin (bird : FlockBird) : bool :=
  F32.leb (F32.of_Z (-25)) (vx (position bird))
  && F32.leb (vx (position bird)) (F32.of_Z 89)
  && F32.leb (F32.of_Z (-25)) (vy (position bird))
  && F32.leb (vy (position bird)) (F32.of_Z 57).

(** A position on the edge of the extended bounds. *)
Definition onMarginEdge (bird : FlockBird) : Prop :=
  withinMargin bird = true
  /\ (vx (position bird) = F32.of_Z (-25) \/ vx (position bird) = F32.of_Z 89
      \/ vy (position bird) = F32.of_Z (-25) \/ vy (position bird) = F32.of_Z 57).


(** The point of the 8-wide formation grid that belongs to the bird of index
    [i]: columns two apart from [baseX - 8], rows three apart from [baseY]. *)
Definition gridOffset (i : Z) : Z * Z := ((Z.rem i 8 - 4) * 2, Z.quot i 8 * 3).




(** Stand-ins for libm at the one argument where its value is exact in
    every implementation: [sin 0 = 0] and [cos 0 = 1]; anywhere else they
    answer "not a number", so nothing computed with them relies on another
    value. *)
Definition sin_at_zero (x : float) : float :=
  match x with S754_zero s => S754_zero s | _ => S754_nan end.

Definition cos_at_zero (x : float) : float :=
  match x with S754_zero _ => F32.one | _ => S754_nan end.

(** A position one of whose coordinates is not a number. *)
Definition nanPosition (bird : FlockBird) : bool :=
  F32.is_nan (vx (position bird)) || F32.is_nan (vy (position bird)).

(** ** Sample inputs *)

(** The packing done by the display library's [color565]. *)
Definition rgb565 (r g b : Z) : Z :=
  Z.lor (Z.shiftl (Z.land r 248) 8) (Z.lor (Z.shiftl (Z.land g 252) 3) (Z.shiftr b 3)).

(** A bird at rest at [(x, y)]. *)
Definition birdAt (x y : float) : FlockBird :=
  {| position := mkVector2D x y;
     velocity := Vec.zero;
     phase := F32.lit 0 100;
     speedMultiplier := F32.lit 100 100;
     separationRadius := F32.lit 300 100 |}.

(** A frame entered at [t] ms in which the birds read the clock as zero and
    every raw random value is zero. *)
Definition frameAt (t : Z) : Frame :=
  {| now := t; now_bird := fun _ => 0; dice := fun _ => 0 |}.

(** A state whose single target pixel is captured, with a bird on it. *)
Definition completeState : State :=
  {| targetPixels := {[ mkPosition 1 1 ]};
     capturedPixels := {[ mkPosition 1 1 ]};
     flock := [birdAt (F32.of_Z 1) (F32.of_Z 1)];
     startTime := 0;
     lastUpdate := 0;
     lastSpawnTime := 0;
     currentDirectionIdx := 0;
     animationComplete := false;
     completionTime := 0 |}.

(** A state with three target pixels left and an empty flock. *)
Definition threeLeftState : State :=
  {| targetPixels := {[ mkPosition 4 3; mkPosition 5 3; mkPosition 6 3 ]};
     capturedPixels := ∅;
     flock := [];
     startTime := 0;
     lastUpdate := 0;
     lastSpawnTime := 0;
     currentDirectionIdx := 0;
     animationComplete := false;
     completionTime := 0 |}.

(** A state with one bird beyond the left margin and one on the screen. *)
Definition strayState : State :=
  {| targetPixels := {[ mkPosition 4 3 ]};
     capturedPixels := ∅;
     flock := [birdAt (F32.of_Z (-30)) (F32.of_Z 5); birdAt (F32.of_Z 10) (F32.of_Z 10)];
     startTime := 0;
     lastUpdate := 0;
     lastSpawnTime := 0;
     currentDirectionIdx := 0;
     animationComplete := false;
     completionTime := 0 |}.

(** ** Vocabulary of the further properties *)

(** The pixel a bird can light: its rounded position when it is on screen. *)
Definition pixelUnder (bird : FlockBird) : option Position :=
  if isOnScreen bird then getPixelPos bird else None.

(** The pixels under the on-screen birds of a flock. *)
Definition pixelsUnder (birds : list FlockBird) : gset Position :=
  list_to_set (omap pixelUnder birds).

(** [distance] as every flocking rule computes it. *)
Definition distanceTo (self other : FlockBird) : float :=
  Vec.magnitude (Vec.sub (position self) (position other)).

(** Both coordinates are numbers. *)
Definition finitePosition (bird : FlockBird) : bool :=
  F32.is_finite (vx (position bird)) && F32.is_finite (vy (position bird)).

(** The guard of [separationRule]. *)
Definition inSeparationRange (self other : FlockBird) : bool :=
  F32.gtb (distanceTo self other) (F32.of_Z 0)
  && F32.ltb (distanceTo self other) (separationRadius self).

(** No flock-mate closer than the cohesion distance, the largest of the
    three. *)
Definition alone (self : FlockBird) (neighbours : list FlockBird) : Prop :=
  Forall (fun other => F32.ltb (distanceTo self other) (F32.of_Z 12) = false) neighbours.

(** The wing-flapping terms of [updateFlocking]. *)
Definition flap (sinf cosf : float -> float) (self : FlockBird) (ms : Z) : Vector2D :=
  let currentTime := F32.div (F32.of_Z (u32 ms)) (F32.of_Z 1000) in
  mkVector2D
    (F32.mul (F32.mul (F32.lit 5 100)
                (sinf (F32.add (phase self) (F32.mul currentTime (F32.of_Z 8)))))
             (speedMultiplier self))
    (F32.mul (F32.mul (F32.lit 3 100)
                (cosf (F32.add (phase self) (F32.mul currentTime (F32.of_Z 6)))))
             (speedMultiplier self)).

(** The float [-0.0]. *)
Definition negativeZero (x : float) : bool :=
  match x with S754_zero true => true | _ => false end.

(** The three members that only the constructor writes. *)
Definition sameConstants (a c : FlockBird) : Prop :=
  phase c = phase a /\ speedMultiplier c = speedMultiplier a
  /\ separationRadius c = separationRadius a.

(** The ranges the constructor draws them from. *)
Definition constantsInRange (bird : FlockBird) : bool :=
  F32.geb (phase bird) (F32.of_Z 0) && F32.ltb (phase bird) (F32.lit 628 100)
  && F32.geb (speedMultiplier bird) (F32.lit 70 100)
  && F32.ltb (speedMultiplier bird) (F32.lit 130 100)
  && F32.geb (separationRadius bird) (F32.of_Z 2)
  && F32.ltb (separationRadius bird) (F32.of_Z 4).

(** Two states that agree on everything the flocking block reads. *)
Definition sameSwarm (st st1 : State) : Prop :=
  targetPixels st1 = targetPixels st /\ capturedPixels st1 = capturedPixels st
  /\ flock st1 = flock st /\ startTime st1 = startTime st
  /\ lastSpawnTime st1 = lastSpawnTime st
  /\ currentDirectionIdx st1 = currentDirectionIdx st.

(** The bounding box of the target mask. *)
Definition onTextArea (p : Position) : bool :=
  (4 <=? px p) && (px p <=? 59) && (3 <=? py p) && (py p <=? 30).

(** A frame entered at most three seconds after the start at [ms]. *)
Definition earlyFrame (ms : Z) (f : Frame) : Prop :=
  u32 (u32 (now f) - u32 ms) <= 3000.

(** The pixel a display call draws, if it draws one. *)
Definition drawnAt (call : Gfx) : option Position :=
  match call with
  | DrawPixel x y _ => Some (mkPosition x y)
  | _ => None
  end.

(** Both coordinates are well-formed binary32 values. *)
Definition validPosition (bird : FlockBird) : bool :=
  F32.valid (vx (position bird)) && F32.valid (vy (position bird)).

(** The order [inOrder] sorts by: not greater under [operator<]. *)
Definition Position_le (a c : Position) : Prop := Is_true (negb (Position_ltb c a)).

(** [lo <= x < hi] in float comparisons. *)
Definition between (lo hi x : float) : bool := F32.leb lo x && F32.ltb x hi.

(** The velocity range of a new bird, by spawn direction. *)
Definition flightSpeedOk (direction : string) (v : Vector2D) : bool :=
  if String.eqb direction "left" then
    between (F32.lit 16 10) (F32.lit 24 10) (vx v)
    && F32.ltb (F32.lit (-6) 10) (vy v) && F32.ltb (vy v) (F32.lit 6 10)
  else if String.eqb direction "right" then
    F32.ltb (F32.lit (-24) 10) (vx v) && F32.leb (vx v) (F32.lit (-16) 10)
    && F32.ltb (F32.lit (-6) 10) (vy v) && F32.ltb (vy v) (F32.lit 6 10)
  else if String.eqb direction "top" then
    between (F32.lit 16 10) (F32.lit 24 10) (vy v)
    && F32.ltb (F32.lit (-6) 10) (vx v) && F32.ltb (vx v) (F32.lit 6 10)
  else if String.eqb direction "bottom" then
    F32.ltb (F32.lit (-24) 10) (vy v) && F32.leb (vy v) (F32.lit (-16) 10)
    && F32.ltb (F32.lit (-6) 10) (vx v) && F32.ltb (vx v) (F32.lit 6 10)
  else
    between (F32.lit 8 10) (F32.lit 12 10) (vx v)
    && between (F32.lit 8 10) (F32.lit 12 10) (vy v).

(** The speed factor drawn by the constructor. *)
Definition scaled (component : float) (a : Z) : float :=
  F32.div (F32.mul component (F32.of_Z a)) (F32.of_Z 100).

(** The coordinate of a new bird: base, grid offset and jitter. *)
Definition spawnCoord (base offset jitter : Z) : float :=
  F32.add (F32.of_Z base)
    (F32.add (F32.of_Z offset) (F32.div (F32.of_Z jitter) (F32.of_Z 100))).

(** Which birds of a wave are created outside the screen. *)
Definition startsOutside (direction : string) (i : Z) : bool :=
  String.eqb direction "left" || String.eqb direction "right"
  || String.eqb direction "bottom"
  || (String.eqb direction "top" && (i <? 32)).

(** ** Further sample inputs *)

(** The state after [setup] with two birds put on the screen, the first on
    the target pixel (5, 15). *)
Definition maskState : State :=
  {| targetPixels := getThemeParkWaitsPixels;
     capturedPixels := ∅;
     flock := [birdAt (F32.of_Z 5) (F32.of_Z 15); birdAt (F32.of_Z 40) (F32.of_Z 20)];
     startTime := 0;
     lastUpdate := 0;
     lastSpawnTime := 0;
     currentDirectionIdx := 0;
     animationComplete := false;
     completionTime := 0 |}.

(** Three birds: on the screen, left of it, and on its last quarter pixel. *)
Definition threeBirds : list FlockBird :=
  [birdAt (F32.of_Z 10) (F32.of_Z 10); birdAt (F32.of_Z (-5)) (F32.of_Z 3);
   birdAt (F32.lit 255 4) (F32.of_Z 31)].

(** * Properties *)

(** ** The key of the pixel sets *)

(** Two positions that [operator<] does not order are the same position, so
    a [std::set<Position>] holds each coordinate once and is a set of
    coordinates in the usual sense. *)
Lemma Position_ltb_equiv (a c : Position) :
  Position_ltb a c = false /\ Position_ltb c a = false <-> a = c.
Proof.
  unfold Position_ltb. destruct a as [ax ay], c as [cx cy]. cbn. split.
  - intros [H1 H2].
    apply orb_false_elim in H1 as [H1 H1'], H2 as [H2 H2'].
    apply Z.ltb_ge in H1, H2.
    assert (ax = cx) by lia. subst cx.
    rewrite Z.eqb_refl in H1', H2'. cbn in H1', H2'.
    apply Z.ltb_ge in H1', H2'. f_equal. lia.
  - intros [= -> ->]. rewrite !Z.ltb_irrefl, Z.eqb_refl. done.
Qed.

(** ** Comparison of floats *)

Lemma SFcompare_antisym (x y : float) :
  SFcompare y x = option_map CompOpp (SFcompare x y).
Proof.
  destruct x as [sx|sx| |sx mx ex], y as [sy|sy| |sy my ey]; simpl;
    try reflexivity;
    try (destruct sx; reflexivity); try (destruct sy; reflexivity);
    try (destruct sx, sy; reflexivity).
  assert (E : PosDef.Pos.compare_cont Eq my mx
              = CompOpp (PosDef.Pos.compare_cont Eq mx my)).
  { symmetry. exact (Pos.compare_cont_antisym mx my Eq). }
  destruct sx, sy; try reflexivity;
    rewrite (Z.compare_antisym ex ey);
    destruct (ex ?= ey); simpl; try reflexivity; by rewrite E.
Qed.

Lemma leb_not_gtb (x y : float) : F32.leb x y = true -> F32.gtb x y = false.
Proof.
  unfold F32.leb, F32.gtb, SFleb, SFltb. rewrite (SFcompare_antisym x y).
  by destruct (SFcompare x y) as [[]|].
Qed.

Lemma leb_not_ltb (x y : float) : F32.leb x y = true -> F32.ltb y x = false.
Proof. apply leb_not_gtb. Qed.

Lemma not_ltb_leb (x y : float) :
  F32.is_nan x = false -> F32.is_nan y = false ->
  F32.ltb x y = false -> F32.leb y x = true.
Proof.
  unfold F32.leb, F32.ltb, SFleb, SFltb. rewrite (SFcompare_antisym x y).
  intros Hx Hy. destruct (SFcompare x y) as [[]|] eqn:E; try done.
  by destruct x, y.
Qed.

(** ** Facts about single-precision arithmetic *)

Lemma digits2_pos_size (p : positive) : digits2_pos p = Pos.size p.
Proof. induction p; simpl; congruence. Qed.

Lemma digits2_pos_bounds (p : positive) :
  2 ^ (Z.pos (digits2_pos p) - 1) <= Z.pos p < 2 ^ Z.pos (digits2_pos p).
Proof.
  rewrite digits2_pos_size. split.
  - pose proof (Pos.size_le p) as H.
    apply Pos2Z.pos_le_pos in H. rewrite Pos2Z.inj_pow in H.
    change (Z.pos p~0) with (2 * Z.pos p) in H.
    replace (Z.pos (Pos.size p)) with (Z.pos (Pos.size p) - 1 + 1) in H by lia.
    rewrite Z.pow_add_r in H by lia. lia.
  - pose proof (Pos.size_gt p) as H.
    apply Pos2Z.pos_lt_pos in H. by rewrite Pos2Z.inj_pow in H.
Qed.

Lemma valid_finite (s : bool) (m : positive) (e : Z) :
  F32.valid (S754_finite s m e) = true ->
  Z.pos m < 2 ^ 24 /\ -149 <= e <= 104 /\ (-149 < e -> 2 ^ 23 <= Z.pos m).
Proof.
  unfold F32.valid, valid_binary, bounded, canonical_mantissa, fexp, emin,
    F32.prec, F32.emax.
  intros [Hc He]%andb_prop. apply Z.eqb_eq in Hc. apply Z.leb_le in He.
  pose proof (digits2_pos_bounds m) as [Hlo Hhi].
  set (k := Z.pos (digits2_pos m)) in *.
  assert (Hk : k <= 24) by lia.
  split; [|split; [lia|]].
  - eapply Z.lt_le_trans; [exact Hhi|]. apply Z.pow_le_mono_r; lia.
  - intros Hn. assert (k = 24) by lia. subst k. rewrite H in Hlo. exact Hlo.
Qed.

Lemma compare_cont_Eq_spec (p q : positive) :
  CompareSpec (p = q) (Z.pos p < Z.pos q) (Z.pos q < Z.pos p) (PosDef.Pos.compare_cont Eq p q).
Proof.
  change (PosDef.Pos.compare_cont Eq p q) with (Pos.compare p q).
  destruct (Pos.compare_spec p q); constructor; lia.
Qed.

Lemma to_int_of_Z_small (q : Z) : 0 <= q <= 64 -> F32.to_int (F32.of_Z q) = Some q.
Proof.
  intros Hq.
  assert (H : forallb (fun n => match F32.to_int (F32.of_Z n) with
                               | Some k => k =? n | None => false end)
                      (seqZ 0 65) = true) by (vm_compute; reflexivity).
  rewrite forallb_forall in H. specialize (H q).
  destruct (F32.to_int (F32.of_Z q)) as [k|].
  - f_equal. apply Z.eqb_eq, H. apply list_elem_of_In, elem_of_seqZ. lia.
  - discriminate H. apply list_elem_of_In, elem_of_seqZ. lia.
Qed.

(** A valid float in [[0, 2^(eW+23))] is a zero or has a negative exponent below eW. *)
Lemma onscreen_coord_cases (x : float) (eW : Z) :
  F32.valid x = true -> -149 < eW < 0 ->
  F32.geb x (F32.of_Z 0) = true ->
  F32.ltb x (S754_finite false 8388608 eW) = true ->
  (exists s, x = S754_zero s)
  \/ exists m p, x = S754_finite false m (Z.neg p) /\ Z.neg p < eW /\ Z.pos m < 2 ^ 24.
Proof.
  intros Hv HeW Hge Hlt.
  destruct x as [s|s| |s m e]; [left; by exists s|by destruct s|done|].
  right. destruct s; [done|].
  apply valid_finite in Hv as (Hm & He & Hn).
  unfold F32.ltb, SFltb, SFcompare in Hlt.
  destruct (Z.compare_spec e eW) as [->|Hlt'|Hgt]; try done.
  - destruct (compare_cont_Eq_spec m 8388608); try done.
    specialize (Hn ltac:(lia)). change (2 ^ 23) with 8388608 in Hn. lia.
  - destruct e as [|e|e]; try lia. by exists m, e.
Qed.

Lemma round_small (m p : positive) (W : Z) :
  0 <= W <= 64 -> Z.pos m < W * 2 ^ Z.pos p ->
  let q := (Z.pos m + 2 ^ (Z.pos p - 1)) / 2 ^ Z.pos p in
  0 <= q <= W /\ F32.to_int (F32.round (S754_finite false m (Z.neg p))) = Some q.
Proof.
  intros HW Hm q.
  assert (Hp : 0 < 2 ^ Z.pos p) by (apply Z.pow_pos_nonneg; lia).
  assert (Hh : 2 * 2 ^ (Z.pos p - 1) = 2 ^ Z.pos p).
  { rewrite <- Z.pow_succ_r by lia. f_equal. lia. }
  assert (Hq : 0 <= q <= W).
  { unfold q. split.
    - apply Z.div_pos; lia.
    - apply Z.lt_succ_r. apply Z.div_lt_upper_bound; lia. }
  split; [exact Hq|].
  unfold F32.round. fold q. change (binary_normalize F32.prec F32.emax q 0 false) with (F32.of_Z q).
  apply to_int_of_Z_small. lia.
Qed.

Lemma pixel_coord (x : float) (eW : Z) :
  F32.valid x = true -> -23 <= eW <= -17 ->
  F32.geb x (F32.of_Z 0) = true ->
  F32.ltb x (S754_finite false 8388608 eW) = true ->
  exists q, F32.to_int (F32.round x) = Some q /\ 0 <= q <= 2 ^ (eW + 23).
Proof.
  intros Hv HeW Hge Hlt.
  assert (HW : 0 < 2 ^ (eW + 23) <= 64).
  { split; [apply Z.pow_pos_nonneg; lia|].
    change 64 with (2 ^ 6). apply Z.pow_le_mono_r; lia. }
  destruct (onscreen_coord_cases x eW Hv ltac:(lia) Hge Hlt)
    as [[s ->]|(m & p & -> & Hp & Hm)].
  - exists 0. split; [reflexivity|lia].
  - destruct (round_small m p (2 ^ (eW + 23)) ltac:(lia)) as [Hq Hr].
    + rewrite <- Z.pow_add_r by lia.
      eapply Z.lt_le_trans; [exact Hm|]. apply Z.pow_le_mono_r; lia.
    + eexists. split; [exact Hr|exact Hq].
Qed.

Lemma edge_pixel (x : float) (eW : Z) (mE : positive) :
  F32.valid x = true -> -23 <= eW <= -17 ->
  Z.pos mE + 2 ^ (- eW) = 2 ^ 24 ->
  F32.ltb x (S754_finite false 8388608 eW) = true ->
  F32.leb (S754_finite false mE (eW - 1)) x = true ->
  F32.to_int (F32.round x) = Some (2 ^ (eW + 23)).
Proof.
  intros Hv HeW HmE Hlt Hle.
  assert (HW : 0 < 2 ^ (eW + 23) <= 64).
  { split; [apply Z.pow_pos_nonneg; lia|].
    change 64 with (2 ^ 6). apply Z.pow_le_mono_r; lia. }
  assert (Hge : F32.geb x (F32.of_Z 0) = true).
  { destruct x as [s|s| |s m e]; try done; by destruct s. }
  destruct (onscreen_coord_cases x eW Hv ltac:(lia) Hge Hlt)
    as [[s ->]|(m & p & -> & Hp & Hm)]; [done|].
  unfold F32.leb, SFleb, SFcompare in Hle.
  assert (He : Z.neg p = eW - 1 /\ Z.pos mE <= Z.pos m).
  { destruct (Z.compare_spec (eW - 1) (Z.neg p)) as [E|E|E]; try done; try lia.
    rewrite <- E in *. split; [done|].
    destruct (compare_cont_Eq_spec mE m); try done; subst; lia. }
  destruct He as [He HmEm].
  assert (Hpp : Z.pos p = 1 - eW) by lia.
  destruct (round_small m p (2 ^ (eW + 23)) ltac:(lia)) as [Hq Hr].
  { rewrite <- Z.pow_add_r by lia. rewrite Hpp.
    replace (eW + 23 + (1 - eW)) with 24 by lia. exact Hm. }
  rewrite Hr. f_equal. apply Z.le_antisymm; [apply Hq|].
  apply Z.div_le_lower_bound; [apply Z.pow_pos_nonneg; lia|].
  rewrite Hpp. replace (1 - eW - 1) with (- eW) by lia.
  rewrite <- Z.pow_add_r by lia. replace (1 - eW + (eW + 23)) with 24 by lia. lia.
Qed.
























(** ** Capture *)

Lemma lightLed_cases (t c : gset Position) (bird : FlockBird) :
  lightLed t c bird = c
  \/ exists p, (p ∈ t) /\ (p ∉ c) /\ lightLed t c bird = {[ p ]} ∪ c.
Proof.
  unfold lightLed.
  destruct (isOnScreen bird); [|by left].
  destruct (getPixelPos bird) as [p|]; [|by left].
  destruct (bool_decide (p ∈ t)) eqn:Ht; [|by left].
  destruct (bool_decide (p ∈ c)) eqn:Hc; [by left|].
  right. exists p. apply bool_decide_eq_true in Ht.
  apply bool_decide_eq_false in Hc. done.
Qed.

Lemma lightLeds_grows (t : gset Position) (birds : list FlockBird) (c : gset Position) :
  c ⊆ lightLeds t birds c /\ lightLeds t birds c ⊆ c ∪ t.
Proof.
  unfold lightLeds. revert c.
  induction birds as [|bird birds IH]; intros c; simpl.
  - split; [done | apply union_subseteq_l].
  - destruct (IH (lightLed t c bird)) as [IH1 IH2].
    destruct (lightLed_cases t c bird) as [E|(p & Hp & _ & E)]; rewrite E in *.
    + done.
    + split.
      * etrans; [apply union_subseteq_r | exact IH1].
      * etrans; [exact IH2 |].
        apply union_least; [|apply union_subseteq_r].
        apply union_least; [|apply union_subseteq_l].
        intros q Hq%elem_of_singleton. subst q. by apply elem_of_union_r.
Qed.

Section Properties.

Variables (sinf cosf : float -> float) (color565 : Z -> Z -> Z -> Z).

Let loop' := loop sinf cosf color565.
Let play' := play sinf cosf color565.
Let run' := run sinf cosf color565.

Lemma spawnBlock_sets (st : State) (t : Z) (d : Dice) :
  targetPixels (spawnBlock st t d) = targetPixels st
  /\ capturedPixels (spawnBlock st t d) = capturedPixels st.
Proof. unfold spawnBlock. by destruct (spawnDue _ _ _). Qed.

Lemma flockingStep_captured (st : State) (t : Z) (f : Frame) :
  let st' := flockingStep sinf cosf st t f in
  targetPixels st' = targetPixels st
  /\ capturedPixels st ⊆ capturedPixels st'
  /\ capturedPixels st' ⊆ capturedPixels st ∪ targetPixels st.
Proof.
  unfold flockingStep. cbn zeta. cbn [targetPixels capturedPixels].
  destruct (spawnBlock_sets st t (dice f)) as [-> ->].
  split; [done | apply lightLeds_grows].
Qed.

Lemma noteCompletion_sets (t : Z) (st : State) :
  targetPixels (noteCompletion t st) = targetPixels st
  /\ capturedPixels (noteCompletion t st) = capturedPixels st
  /\ flock (noteCompletion t st) = flock st.
Proof. unfold noteCompletion. by destruct (_ && _). Qed.

Lemma loop_captured (st : State) (f : Frame) :
  let st' := fst (loop' st f) in
  targetPixels st' = targetPixels st
  /\ capturedPixels st ⊆ capturedPixels st'
  /\ capturedPixels st' ⊆ capturedPixels st ∪ targetPixels st.
Proof.
  unfold loop', loop. cbn zeta.
  destruct (_ <? 50); [by split; [|split; [|apply union_subseteq_l]]|].
  destruct (noteCompletion_sets (u32 (now f)) (set_lastUpdate (u32 (now f)) st))
    as (Ht & Hc & _).
  change (targetPixels (set_lastUpdate (u32 (now f)) st)) with (targetPixels st) in Ht.
  change (capturedPixels (set_lastUpdate (u32 (now f)) st)) with (capturedPixels st) in Hc.
  set (st1 := noteCompletion _ _) in *.
  destruct (finished _ st1); cbn [fst].
  { change (targetPixels (set_animationComplete true st1)) with (targetPixels st1).
    change (capturedPixels (set_animationComplete true st1)) with (capturedPixels st1).
    rewrite Ht, Hc. by split; [|split; [|apply union_subseteq_l]]. }
  destruct (negb _); cbn [fst].
  - destruct (flockingStep_captured st1 (u32 (now f)) f) as (A & B & C).
    rewrite Hc, Ht in *. by rewrite A.
  - rewrite Ht, Hc. by split; [|split; [|apply union_subseteq_l]].
Qed.

Lemma play_snoc (st : State) (frames : list Frame) (f : Frame) :
  play' st (frames ++ [f]) = fst (loop' (play' st frames) f).
Proof. unfold play', play. by rewrite foldl_app. Qed.

Lemma play_captured (st : State) (frames : list Frame) :
  capturedPixels st ⊆ targetPixels st ->
  capturedPixels (play' st frames) ⊆ targetPixels (play' st frames).
Proof.
  intros Hst. induction frames as [|f frames IH] using rev_ind; [done|].
  rewrite play_snoc.
  destruct (loop_captured (play' st frames) f) as (Ht & _ & Hc).
  rewrite Ht. etrans; [exact Hc|]. by apply union_least.
Qed.

(** C1: in every frame of a run started by [setup], the captured pixels are
    target pixels; one more call of [loop] leaves the target mask alone,
    keeps every captured pixel (so the size of the captured set does not
    decrease) and adds target pixels only.  The only step that touches the
    captured set, [lightLed], either leaves it as it is or inserts one target
    pixel that was not captured yet. *)
Theorem captured_set_grows_within_target (ms : Z) (frames : list Frame) (f : Frame) :
  let st := run' ms frames in
  let st' := fst (loop' st f) in
  capturedPixels st ⊆ targetPixels st
  /\ targetPixels st' = targetPixels st
  /\ capturedPixels st ⊆ capturedPixels st'
  /\ (size (capturedPixels st) <= size (capturedPixels st'))%nat
  /\ capturedPixels st' ∖ capturedPixels st ⊆ targetPixels st
  /\ forall (t c : gset Position) (bird : FlockBird),
       lightLed t c bird = c
       \/ exists p, (p ∈ t) /\ (p ∉ c) /\ lightLed t c bird = {[ p ]} ∪ c.
Proof.
  cbn zeta.
  destruct (loop_captured (run' ms frames) f) as (Ht & Hsub & Hnew).
  split; [|split; [|split; [|split; [|split]]]].
  - unfold run', run. apply play_captured. cbn. apply empty_subseteq.
  - exact Ht.
  - exact Hsub.
  - by apply subseteq_size.
  - intros p [Hp Hn]%elem_of_difference.
    apply Hnew in Hp. apply elem_of_union in Hp. by destruct Hp.
  - apply lightLed_cases.
Qed.

(** ** Completion *)

Lemma loop_complete (st : State) (f : Frame) :
  textComplete st = true ->
  let st' := fst (loop' st f) in
  capturedPixels st' = capturedPixels st
  /\ targetPixels st' = targetPixels st
  /\ flock st' = flock st
  /\ ((u32 (u32 (now f) - lastUpdate st) <? 50) = true /\ st' = st
      \/ (u32 (u32 (now f) - lastUpdate st) <? 50) = false
         /\ completionTime st' =
            if completionTime st =? 0 then u32 (now f) else completionTime st).
Proof.
  intros Hc. unfold loop', loop. cbn zeta.
  destruct (_ <? 50); [by repeat split; left|].
  change (textComplete (set_lastUpdate (u32 (now f)) st)) with (textComplete st).
  rewrite Hc. unfold noteCompletion.
  change (textComplete (set_lastUpdate (u32 (now f)) st)) with (textComplete st).
  change (completionTime (set_lastUpdate (u32 (now f)) st)) with (completionTime st).
  rewrite Hc. cbn [andb negb].
  destruct (completionTime st =? 0); destruct (finished _ _); by repeat split; right.
Qed.

(** C2: from a state in which the captured set has reached the size of the
    target mask, no sequence of further frames changes the captured set, and
    the completion time either keeps its value or goes from unset (zero) to
    the entry time of one of these frames; a time that is set is therefore
    never overwritten.  The first frame that passes the 50 ms gate is the
    one that records it. *)
Theorem completion_freezes_capture (st : State) (frames : list Frame) :
  textComplete st = true ->
  let st' := play' st frames in
  capturedPixels st' = capturedPixels st
  /\ textComplete st' = true
  /\ (completionTime st' = completionTime st
      \/ completionTime st = 0
         /\ exists f, In f frames /\ completionTime st' = u32 (now f))
  /\ forall f,
       (u32 (u32 (now f) - lastUpdate st) <? 50) = true
       \/ completionTime (fst (loop' st f)) =
          if completionTime st =? 0 then u32 (now f) else completionTime st.
Proof.
  intros Hc. cbn zeta.
  assert (Hplay : capturedPixels (play' st frames) = capturedPixels st
                  /\ targetPixels (play' st frames) = targetPixels st
                  /\ (completionTime (play' st frames) = completionTime st
                      \/ completionTime st = 0
                         /\ exists f, In f frames
                                      /\ completionTime (play' st frames) = u32 (now f))).
  { induction frames as [|f frames IH] using rev_ind; [by repeat split; left|].
    destruct IH as (IHc & IHt & IHk).
    assert (Hc' : textComplete (play' st frames) = true).
    { unfold textComplete. by rewrite IHc, IHt. }
    rewrite play_snoc.
    destruct (loop_complete (play' st frames) f Hc') as (Lc & Lt & _ & Lk).
    split; [by rewrite Lc|]. split; [by rewrite Lt|].
    destruct Lk as [[_ ->]|[_ Lk]].
    - destruct IHk as [E|[E0 (g & Hg & E)]]; [by left|].
      right. split; [done|]. exists g. split; [|done].
      apply in_or_app. by left.
    - rewrite Lk. destruct (completionTime (play' st frames) =? 0) eqn:Ez.
      + apply Z.eqb_eq in Ez.
        destruct IHk as [E|[E0 (g & Hg & E)]].
        * right. split; [congruence|]. exists f. split; [|done].
          apply in_or_app. right. by left.
        * right. split; [done|]. exists f. split; [|done].
          apply in_or_app. right. by left.
      + destruct IHk as [E|[E0 (g & Hg & E)]]; [by left|].
        right. split; [done|]. exists g. split; [|done].
        apply in_or_app. by left. }
  destruct Hplay as (Pc & Pt & Pk).
  split; [exact Pc|]. split; [unfold textComplete; by rewrite Pc, Pt|].
  split; [exact Pk|].
  intros f. destruct (loop_complete st f Hc) as (_ & _ & _ & [[G _]|[_ K]]);
    [by left | by right].
Qed.

End Properties.

(** ** Despawn *)

Lemma withinMargin_not_flownOff (bird : FlockBird) :
  withinMargin bird = true -> flownOff bird = false.
Proof.
  unfold withinMargin, flownOff.
  intros [[[H1 H2]%andb_prop H3]%andb_prop H4]%andb_prop.
  by rewrite (leb_not_ltb _ _ H1), (leb_not_gtb _ _ H2),
             (leb_not_ltb _ _ H3), (leb_not_gtb _ _ H4).
Qed.

Lemma not_flownOff_withinMargin (bird : FlockBird) :
  flownOff bird = false -> nanPosition bird = false -> withinMargin bird = true.
Proof.
  unfold withinMargin, flownOff, nanPosition.
  intros [[[H1 H2]%orb_false_elim H3]%orb_false_elim H4]%orb_false_elim
         [Nx Ny]%orb_false_elim.
  rewrite (not_ltb_leb _ (F32.of_Z (-25)) Nx eq_refl H1),
          (not_ltb_leb (F32.of_Z 89) _ eq_refl Nx H2),
          (not_ltb_leb _ (F32.of_Z (-25)) Ny eq_refl H3),
          (not_ltb_leb (F32.of_Z 57) _ eq_refl Ny H4).
  done.
Qed.

Lemma removeFlownOff_In (birds : list FlockBird) (bird : FlockBird) :
  In bird (removeFlownOff birds) <-> In bird birds /\ flownOff bird = false.
Proof.
  unfold removeFlownOff. by rewrite filter_In, negb_true_iff.
Qed.

Section Despawn.

Variables (sinf cosf : float -> float) (color565 : Z -> Z -> Z -> Z).

Lemma flockingStep_flock (st : State) (t : Z) (f : Frame) :
  exists birds, flock (flockingStep sinf cosf st t f) = removeFlownOff birds.
Proof. unfold flockingStep. cbn zeta. cbn [flock]. eauto. Qed.

Lemma loop_flock (st : State) (f : Frame) :
  flock (fst (loop sinf cosf color565 st f)) = flock st
  \/ exists birds, flock (fst (loop sinf cosf color565 st f)) = removeFlownOff birds.
Proof.
  unfold loop. cbn zeta.
  destruct (_ <? 50); [by left|].
  destruct (noteCompletion_sets (u32 (now f)) (set_lastUpdate (u32 (now f)) st))
    as (_ & _ & Hf).
  change (flock (set_lastUpdate (u32 (now f)) st)) with (flock st) in Hf.
  set (st1 := noteCompletion _ _) in *.
  destruct (finished _ st1); cbn [fst]; [by left|].
  destruct (negb _); cbn [fst]; [|by left].
  right. apply flockingStep_flock.
Qed.

Lemma run_flock (ms : Z) (frames : list Frame) :
  flock (run sinf cosf color565 ms frames) = []
  \/ exists birds, flock (run sinf cosf color565 ms frames) = removeFlownOff birds.
Proof.
  unfold run. induction frames as [|f frames IH] using rev_ind; [by left|].
  rewrite play_snoc.
  destruct (loop_flock (play sinf cosf color565 (fst (setup ms)) frames) f) as [E|E];
    [by rewrite E | by right].
Qed.

(** C3: a bird that is in the flock right after the cleanup step of a frame
    (the end of [flockingStep]), or in the flock of any state of a run, does
    not satisfy the despawn predicate, so a bird that does satisfy it has
    been removed; its position is not [x = -30]; and unless a coordinate is
    not a number, the position lies within 25 units of the 64x32 matrix:
    [-25 <= x <= 89] and [-25 <= y <= 57]. *)
Theorem survivors_within_margin (st : State) (t : Z) (f : Frame)
    (ms : Z) (frames : list Frame) (bird : FlockBird) :
  In bird (flock (flockingStep sinf cosf st t f))
  \/ In bird (flock (run sinf cosf color565 ms frames)) ->
  flownOff bird = false
  /\ vx (position bird) <> F32.of_Z (-30)
  /\ (nanPosition bird = true \/ withinMargin bird = true).
Proof.
  intros H.
  assert (Hoff : flownOff bird = false).
  { destruct H as [H|H].
    - destruct (flockingStep_flock st t f) as [birds E]. rewrite E in H.
      by apply removeFlownOff_In in H as [_ ?].
    - destruct (run_flock ms frames) as [E|[birds E]]; rewrite E in H; [done|].
      by apply removeFlownOff_In in H as [_ ?]. }
  split; [exact Hoff|]. split.
  - intros E. unfold flownOff in Hoff. by rewrite E in Hoff.
  - destruct (nanPosition bird) eqn:N; [by left|].
    right. by apply not_flownOff_withinMargin.
Qed.

End Despawn.

(** C9: the despawn predicate is strict.  A bird of the flock whose position
    is on the edge of the extended bounds ([x = -25], [x = 89], [y = -25] or
    [y = 57], the other coordinate within the bounds) does not satisfy it and
    is still in the flock after the cleanup step. *)
Theorem margin_edge_survives (birds : list FlockBird) (bird : FlockBird) :
  In bird birds ->
  onMarginEdge bird ->
  flownOff bird = false /\ In bird (removeFlownOff birds).
Proof.
  intros Hin [Hw _].
  pose proof (withinMargin_not_flownOff bird Hw) as Hoff.
  split; [exact Hoff|]. by apply removeFlownOff_In.
Qed.

(** ** Spawning *)

Lemma rand_mapM_length {A B : Type} (f : A -> Rand B) (l : list A) (d : Dice) :
  length (fst (rand_mapM f l d)) = length l.
Proof.
  revert d. induction l as [|a l IH]; intros d; [done|].
  cbn [rand_mapM]. unfold rand_bind.
  destruct (f a d) as [c d1]. specialize (IH d1).
  destruct (rand_mapM f l d1) as [cs d2]. cbn in *. by rewrite IH.
Qed.

Lemma rand_mapM_lookup {A B : Type} (f : A -> Rand B) (l : list A) (d : Dice)
    (i : nat) (c : B) :
  fst (rand_mapM f l d) !! i = Some c ->
  exists a d', l !! i = Some a /\ c = fst (f a d').
Proof.
  revert d i. induction l as [|a l IH]; intros d i; [done|].
  cbn [rand_mapM]. unfold rand_bind.
  destruct (f a d) as [c0 d1] eqn:E0. specialize (IH d1).
  destruct (rand_mapM f l d1) as [cs d2]. cbn in *.
  destruct i as [|i]; cbn.
  - intros [= <-]. exists a, d. by rewrite E0.
  - intros H. destruct (IH i H) as (a' & d' & Ha & Hc). by exists a', d'.
Qed.

Lemma createFlockFromDirection_length (numBirds : Z) (direction : string) (d : Dice) :
  length (fst (createFlockFromDirection numBirds direction d)) = Z.to_nat numBirds.
Proof.
  unfold createFlockFromDirection, rand_bind.
  destruct (entryPoint direction d) as [[[baseX baseY] flightDir] d1].
  by rewrite rand_mapM_length, length_seqZ.
Qed.

Lemma to_i32_small (z : Z) : - 2 ^ 31 <= z < 2 ^ 31 -> to_i32 z = z.
Proof.
  intros Hz. unfold to_i32, u32.
  destruct (Z.ltb_spec (z mod 2 ^ 32) (2 ^ 31));
    change (2 ^ 32) with 4294967296 in *; change (2 ^ 31) with 2147483648 in *;
    Z.div_mod_to_equations; lia.
Qed.

Section DirectionIndex.

Variables (sinf cosf : float -> float) (color565 : Z -> Z -> Z -> Z).

Lemma loop_direction_index (st : State) (f : Frame) :
  0 <= currentDirectionIdx st < numDirections ->
  0 <= currentDirectionIdx (fst (loop sinf cosf color565 st f)) < numDirections.
Proof.
  intros Hi. unfold loop. cbn zeta.
  destruct (_ <? 50); [exact Hi|].
  set (st1 := noteCompletion _ _).
  assert (H1 : currentDirectionIdx st1 = currentDirectionIdx st).
  { unfold st1, noteCompletion. by destruct (_ && _). }
  destruct (finished _ st1); cbn [fst]; [by rewrite <- H1 in Hi|].
  destruct (negb _); cbn [fst]; [|by rewrite H1].
  unfold flockingStep. cbn zeta. cbn [currentDirectionIdx].
  unfold spawnBlock. destruct (spawnDue _ _ _); [|by rewrite H1].
  cbn [spawnWave currentDirectionIdx]. rewrite H1.
  unfold numDirections in *. pose proof (Z.rem_bound_pos (currentDirectionIdx st + 1) 8).
  lia.
Qed.

(** The index into [directions] stays within the array in every state of a
    run, so the default of the list access in [spawnWave] is never used. *)
Lemma run_direction_index (ms : Z) (frames : list Frame) :
  0 <= currentDirectionIdx (run sinf cosf color565 ms frames) < numDirections.
Proof.
  unfold run. induction frames as [|f frames IH] using rev_ind; [done|].
  rewrite play_snoc. by apply loop_direction_index.
Qed.

End DirectionIndex.

(** C7: when the spawn condition holds, the spawning block appends to the
    flock a wave of exactly [min(50, remaining)] new birds, [remaining] being
    the number of target pixels not captured yet; with three pixels left the
    wave has three birds. *)
Theorem wave_size_is_min_50_remaining (st : State) (currentTime : Z) (d : Dice) :
  let remaining :=
    Z.of_nat (size (targetPixels st)) - Z.of_nat (size (capturedPixels st)) in
  Z.of_nat (size (targetPixels st)) < 2 ^ 31 ->
  Z.of_nat (size (capturedPixels st)) < 2 ^ 31 ->
  spawnDue st currentTime (remainingLeds st) = true ->
  exists newFlock,
    flock (spawnBlock st currentTime d) = flock st ++ newFlock
    /\ Z.of_nat (length newFlock) = Z.min 50 remaining.
Proof.
  intros remaining Ht Hc Hdue.
  assert (Hrem : remainingLeds st = remaining).
  { unfold remainingLeds. fold remaining. apply to_i32_small.
    unfold remaining. lia. }
  unfold spawnBlock. rewrite Hdue, Hrem.
  eexists. split; [reflexivity|].
  assert (Hlen : Z.of_nat (length (fst (createFlockFromDirection (min_int 50 remaining)
            (nth (Z.to_nat (currentDirectionIdx st)) directions EmptyString) d)))
          = Z.min 50 remaining).
  { rewrite createFlockFromDirection_length. unfold min_int.
    unfold spawnDue in Hdue. rewrite Hrem in Hdue.
    apply andb_prop in Hdue as [[Hpos _]%andb_prop _]. apply Z.gtb_lt in Hpos.
    destruct (Z.ltb_spec remaining 50); lia. }
  exact Hlen.
Qed.

Lemma formationBird_position (baseX baseY : Z) (flightDir : Vector2D) (i : Z) (d : Dice) :
  exists jx jy,
    -100 <= jx < 100 /\ -100 <= jy < 100
    /\ position (fst (formationBird baseX baseY flightDir i d)) =
       mkVector2D
         (F32.add (F32.of_Z baseX)
            (F32.add (F32.of_Z (fst (gridOffset i))) (F32.div (F32.of_Z jx) (F32.of_Z 100))))
         (F32.add (F32.of_Z baseY)
            (F32.add (F32.of_Z (snd (gridOffset i))) (F32.div (F32.of_Z jy) (F32.of_Z 100)))).
Proof.
  exists (-100 + d 0%nat mod (100 - -100)), (-100 + d 1%nat mod (100 - -100)).
  split; [|split]; [pose proof (Z.mod_pos_bound (d 0%nat) (100 - -100)); lia
                   |pose proof (Z.mod_pos_bound (d 1%nat) (100 - -100)); lia|].
  reflexivity.
Qed.

Lemma entryPoint_base (direction : string) (d : Dice) :
  let '(baseX, baseY, _) := fst (entryPoint direction d) in
  (baseX, baseY) =
    if String.eqb direction "left" then (-10, 16)
    else if String.eqb direction "right" then (74, 16)
    else if String.eqb direction "top" then (32, -10)
    else if String.eqb direction "bottom" then (32, 42)
    else (32, 16).
Proof.
  unfold entryPoint.
  repeat (match goal with |- context [String.eqb ?a ?c] => destruct (String.eqb a c) end;
          [reflexivity|]).
  reflexivity.
Qed.



(** ** Colour conversion at the six primary hues *)

(** C5: at full saturation and value the hues 0, 1/6, 2/6, 3/6, 4/6 and 5/6
    (each the float that the division yields) give exactly red, yellow,
    green, cyan, blue and magenta. *)
Theorem hsvToRgb_primary_hues :
  hsvToRgb (F32.lit 0 6) F32.one F32.one = Some (mkColor 255 0 0)
  /\ hsvToRgb (F32.lit 1 6) F32.one F32.one = Some (mkColor 255 255 0)
  /\ hsvToRgb (F32.lit 2 6) F32.one F32.one = Some (mkColor 0 255 0)
  /\ hsvToRgb (F32.lit 3 6) F32.one F32.one = Some (mkColor 0 255 255)
  /\ hsvToRgb (F32.lit 4 6) F32.one F32.one = Some (mkColor 0 0 255)
  /\ hsvToRgb (F32.lit 5 6) F32.one F32.one = Some (mkColor 255 0 255).
Proof. repeat split; vm_compute; reflexivity. Qed.

(** ** Hue reduction and quantisation *)



(** ** Pixel positions of on-screen birds *)

Lemma isOnScreen_coords (bird : FlockBird) :
  isOnScreen bird = true ->
  F32.geb (vx (position bird)) (F32.of_Z 0) = true
  /\ F32.ltb (vx (position bird)) (S754_finite false 8388608 (-17)) = true
  /\ F32.geb (vy (position bird)) (F32.of_Z 0) = true
  /\ F32.ltb (vy (position bird)) (S754_finite false 8388608 (-18)) = true.
Proof.
  unfold isOnScreen.
  change (F32.of_Z WIDTH) with (S754_finite false 8388608 (-17)).
  change (F32.of_Z HEIGHT) with (S754_finite false 8388608 (-18)).
  by intros [[[? ?]%andb_prop ?]%andb_prop ?]%andb_prop.
Qed.

(** The pixel position of an on-screen bird is defined and lies in
    [0 .. 64] x [0 .. 32]. *)
Lemma onscreen_pixel_defined (bird : FlockBird) :
  F32.valid (vx (position bird)) = true ->
  F32.valid (vy (position bird)) = true ->
  isOnScreen bird = true ->
  exists p, getPixelPos bird = Some p /\ 0 <= px p <= 64 /\ 0 <= py p <= 32.
Proof.
  intros Hvx Hvy (Hx0 & Hx1 & Hy0 & Hy1)%isOnScreen_coords.
  destruct (pixel_coord _ (-17) Hvx ltac:(lia) Hx0 Hx1) as (qx & Ex & Hqx).
  destruct (pixel_coord _ (-18) Hvy ltac:(lia) Hy0 Hy1) as (qy & Ey & Hqy).
  exists (mkPosition qx qy). unfold getPixelPos. rewrite Ex, Ey.
  change (2 ^ (-17 + 23)) with 64 in Hqx. change (2 ^ (-18 + 23)) with 32 in Hqy.
  done.
Qed.

Section OffGrid.

Variable color565 : Z -> Z -> Z -> Z.

(** C10: a bird that passes the on-screen test with [x >= 63.5] or
    [y >= 31.5] has a pixel position with [x = 64] or [y = 32], one past the
    last column or row of the 64x32 matrix.  That position is the one looked
    up in the target mask and the captured set by the capture check, and the
    one handed to [drawPixel] when the bird is drawn. *)
Theorem onscreen_bird_rounds_off_grid (t c : gset Position) (timeElapsed : float)
    (i : nat) (bird : FlockBird) :
  F32.valid (vx (position bird)) = true ->
  F32.valid (vy (position bird)) = true ->
  isOnScreen bird = true ->
  F32.leb (F32.lit 127 2) (vx (position bird)) = true
  \/ F32.leb (F32.lit 63 2) (vy (position bird)) = true ->
  exists p,
    getPixelPos bird = Some p
    /\ 0 <= px p <= WIDTH /\ 0 <= py p <= HEIGHT
    /\ (px p = WIDTH \/ py p = HEIGHT)
    /\ lightLed t c bird =
       (if bool_decide (p ∈ t) && negb (bool_decide (p ∈ c))
        then {[ p ]} ∪ c else c)
    /\ drawBird color565 timeElapsed (i, bird) =
       match getDynamicFlockColor timeElapsed (to_i32 (Z.of_nat i)) with
       | Some birdColor =>
           Some [DrawPixel (px p) (py p)
                   (color565 (r birdColor) (g birdColor) (b birdColor))]
       | None => None
       end.
Proof.
  intros Hvx Hvy Hon Hedge.
  destruct (onscreen_pixel_defined bird Hvx Hvy Hon) as (p & Ep & Hpx & Hpy).
  exists p. split; [exact Ep|]. split; [exact Hpx|]. split; [exact Hpy|].
  split; [|split].
  - pose proof (isOnScreen_coords bird Hon) as (_ & Hx1 & _ & Hy1).
    unfold getPixelPos in Ep.
    destruct Hedge as [Hx|Hy].
    + left.
      change (F32.lit 127 2) with (S754_finite false 16646144 (-17 - 1)) in Hx.
      rewrite (edge_pixel _ (-17) 16646144 Hvx ltac:(lia) eq_refl Hx1 Hx) in Ep.
      destruct (F32.to_int (F32.round (vy (position bird)))); [|done].
      by injection Ep as <-.
    + right.
      change (F32.lit 63 2) with (S754_finite false 16515072 (-18 - 1)) in Hy.
      rewrite (edge_pixel _ (-18) 16515072 Hvy ltac:(lia) eq_refl Hy1 Hy) in Ep.
      destruct (F32.to_int (F32.round (vx (position bird)))); [|done].
      by injection Ep as <-.
  - unfold lightLed. by rewrite Hon, Ep.
  - unfold drawBird. by rewrite Hon, Ep.
Qed.

End OffGrid.

(** ** Velocity limit *)


Section Limit.

Variables (sinf cosf : float -> float).


End Limit.


(** * Further properties of the sketch *)

(** ** The order of pixel positions *)

Lemma Position_ltb_cases (a c : Position) :
  Position_ltb a c = true \/ a = c \/ Position_ltb c a = true.
Proof.
  destruct a as [x y], c as [x' y']. unfold Position_ltb. cbn.
  destruct (Z.ltb_spec x x'), (Z.eqb_spec x x'), (Z.ltb_spec y y'),
    (Z.ltb_spec x' x), (Z.eqb_spec x' x), (Z.ltb_spec y' y); cbn; try tauto; try lia.
  right. left. f_equal; lia.
Qed.

Lemma Position_ltb_trans (a c e : Position) :
  Position_ltb a c = true -> Position_ltb c e = true -> Position_ltb a e = true.
Proof.
  destruct a as [x y], c as [x' y'], e as [x'' y'']. unfold Position_ltb. cbn.
  destruct (Z.ltb_spec x x'), (Z.eqb_spec x x'), (Z.ltb_spec y y'),
    (Z.ltb_spec x' x''), (Z.eqb_spec x' x''), (Z.ltb_spec y' y''),
    (Z.ltb_spec x x''), (Z.eqb_spec x x''), (Z.ltb_spec y y''); cbn; try done; lia.
Qed.

Lemma Position_ltb_irrefl (a : Position) : Position_ltb a a = false.
Proof.
  destruct a as [x y]. unfold Position_ltb. cbn.
  by rewrite !Z.ltb_irrefl, Z.eqb_refl.
Qed.

(** X1: [Position::operator<] is a strict total order (irreflexive, transitive,
    asymmetric, any two positions are comparable or equal) and
    [Position::operator==] holds exactly for equal positions and exactly when
    neither position is less than the other, so the equivalence used by
    [std::set<Position>] is equality of coordinates. *)
Theorem Position_ltb_strict_total_order :
  (forall a, Position_ltb a a = false)
  /\ (forall a c e, Position_ltb a c = true -> Position_ltb c e = true ->
                    Position_ltb a e = true)
  /\ (forall a c, Position_ltb a c = true \/ a = c \/ Position_ltb c a = true)
  /\ (forall a c, Position_ltb a c = true -> Position_ltb c a = false)
  /\ (forall a c, Position_eqb a c = true <-> a = c)
  /\ (forall a c, Position_eqb a c = negb (Position_ltb a c) && negb (Position_ltb c a)).
Proof.
  split; [exact Position_ltb_irrefl|]. split; [exact Position_ltb_trans|].
  split; [exact Position_ltb_cases|]. split; [|split].
  - intros a c H. destruct (Position_ltb c a) eqn:E; [|done].
    pose proof (Position_ltb_trans _ _ _ H E) as T.
    by rewrite Position_ltb_irrefl in T.
  - intros [x y] [x' y']. unfold Position_eqb. cbn. split.
    + by intros [->%Z.eqb_eq ->%Z.eqb_eq]%andb_prop.
    + intros [= -> ->]. by rewrite !Z.eqb_refl.
  - intros [x y] [x' y']. unfold Position_ltb, Position_eqb. cbn.
    destruct (Z.ltb_spec x x'), (Z.eqb_spec x x'), (Z.ltb_spec y y'),
      (Z.ltb_spec x' x), (Z.eqb_spec x' x), (Z.ltb_spec y' y), (Z.eqb_spec y y');
      cbn; try done; lia.
Qed.

Lemma Position_le_total : Total Position_le.
Proof.
  intros a c. unfold Position_le.
  destruct (Position_ltb_cases a c) as [H|[->|H]].
  - left. destruct (Position_ltb c a) eqn:E; [|done].
    pose proof (Position_ltb_trans _ _ _ H E) as T.
    by rewrite Position_ltb_irrefl in T.
  - left. by rewrite Position_ltb_irrefl.
  - right. destruct (Position_ltb a c) eqn:E; [|done].
    pose proof (Position_ltb_trans _ _ _ H E) as T.
    by rewrite Position_ltb_irrefl in T.
Qed.

Lemma Position_le_trans : Transitive Position_le.
Proof.
  intros a c e. unfold Position_le. intros H1 H2.
  destruct (Position_ltb e a) eqn:E; [|done]. exfalso.
  destruct (Position_ltb_cases c e) as [H|[->|H]].
  - pose proof (Position_ltb_trans _ _ _ H E) as T. by rewrite T in H1.
  - by rewrite E in H1.
  - by rewrite H in H2.
Qed.

Lemma inOrder_sorted (s : gset Position) :
  inOrder s ≡ₚ elements s
  /\ NoDup (inOrder s)
  /\ StronglySorted (fun a c => Position_ltb a c = true) (inOrder s).
Proof.
  pose proof Position_le_total as Htotal. pose proof Position_le_trans as Htrans.
  unfold inOrder. fold Position_le.
  pose proof (merge_sort_Permutation Position_le (elements s)) as Hp.
  assert (Hn : NoDup (merge_sort Position_le (elements s))).
  { rewrite Hp. apply NoDup_elements. }
  split; [exact Hp|]. split; [exact Hn|].
  pose proof (StronglySorted_merge_sort Position_le (elements s)) as Hs.
  revert Hn Hs. generalize (merge_sort Position_le (elements s)).
  induction l as [|a l IH]; intros Hn Hs; [constructor|].
  apply NoDup_cons in Hn as [Ha Hn]. inversion Hs as [|? ? Hs' Hall]; subst.
  constructor; [by apply IH|].
  rewrite Forall_forall in Hall |- *. intros c Hc.
  specialize (Hall c Hc). unfold Position_le in Hall.
  destruct (Position_ltb_cases a c) as [H|[->|H]]; [done|done|by rewrite H in Hall].
Qed.

(** ** The capture loop as a set operation *)

Lemma lightLed_elem (t c : gset Position) (bird : FlockBird) (p : Position) :
  p ∈ lightLed t c bird <-> p ∈ c \/ (p ∈ t) /\ pixelUnder bird = Some p.
Proof.
  unfold lightLed, pixelUnder.
  destruct (isOnScreen bird);
    [|split; [by left | intros [H|[_ H]]; [done | discriminate]]].
  destruct (getPixelPos bird) as [q|];
    [|split; [by left | intros [H|[_ H]]; [done | discriminate]]].
  destruct (bool_decide (q ∈ t)) eqn:Ht; cbn [andb].
  - apply bool_decide_eq_true in Ht.
    destruct (bool_decide (q ∈ c)) eqn:Hc; cbn [negb].
    + apply bool_decide_eq_true in Hc.
      split; [by left | intros [H|[_ [= <-]]]; done].
    + rewrite elem_of_union, elem_of_singleton.
      split; [intros [->|H]; [by right | by left]
             | intros [H|[_ [= <-]]]; [by right | by left]].
  - apply bool_decide_eq_false in Ht.
    split; [by left | intros [H|[Hp [= <-]]]; done].
Qed.

Lemma lightLeds_elem (t : gset Position) (birds : list FlockBird) (c : gset Position)
    (p : Position) :
  p ∈ lightLeds t birds c
  <-> p ∈ c \/ (p ∈ t) /\ exists bird, bird ∈ birds /\ pixelUnder bird = Some p.
Proof.
  unfold lightLeds. revert c.
  induction birds as [|b birds IH]; intros c; cbn [foldl].
  - split; [by left|]. intros [H|(_ & bird & H & _)]; [done|]. by apply elem_of_nil in H.
  - rewrite IH, lightLed_elem. split.
    + intros [[H|[Ht E]]|(Ht & bird & Hb & E)]; [by left| |];
        right; (split; [done|]).
      * exists b. split; [apply list_elem_of_here | done].
      * exists bird. split; [by apply list_elem_of_further | done].
    + intros [H|(Ht & bird & Hb & E)]; [by left; left|].
      apply elem_of_cons in Hb as [->|Hb]; [by left; right|].
      right. split; [done|]. by exists bird.
Qed.

(** X2: After the capture loop the captured set is the old set together with
    the target pixels under the on-screen birds; running the loop again on the
    same birds changes nothing, and the order of the birds does not matter. *)
Theorem lightLeds_exact (t : gset Position) (birds : list FlockBird) (c : gset Position) :
  lightLeds t birds c = c ∪ (t ∩ pixelsUnder birds)
  /\ lightLeds t birds (lightLeds t birds c) = lightLeds t birds c
  /\ forall birds', birds ≡ₚ birds' -> lightLeds t birds' c = lightLeds t birds c.
Proof.
  split; [|split].
  - apply set_eq. intros p. unfold pixelsUnder.
    rewrite lightLeds_elem, elem_of_union, elem_of_intersection,
      elem_of_list_to_set, list_elem_of_omap. done.
  - apply set_eq. intros p. rewrite !lightLeds_elem. tauto.
  - intros birds' Hp. apply set_eq. intros p. rewrite !lightLeds_elem.
    split; intros [H|(Ht & b & Hb & E)]; [by left| |by left|];
      right; (split; [done|]); exists b; (split; [|done]).
    + by rewrite Hp.
    + by rewrite <- Hp.
Qed.

(** ** Flocking rules without neighbours in range *)

Lemma sub_self (x : float) : F32.is_finite x = true -> F32.sub x x = S754_zero false.
Proof.
  destruct x as [s|s| |s m e]; try done; intros _.
  - by destruct s.
  - cbn [F32.sub SFsub]. by rewrite Z.sub_diag.
Qed.

Lemma distanceTo_coincident (self other : FlockBird) :
  position other = position self -> finitePosition self = true ->
  distanceTo self other = S754_zero false.
Proof.
  intros E [Hx Hy]%andb_prop. unfold distanceTo, Vec.sub. rewrite E.
  by rewrite (sub_self _ Hx), (sub_self _ Hy).
Qed.

Lemma ltb_leb_12 (d r : float) :
  F32.ltb d r = true -> F32.leb r (F32.of_Z 12) = true -> F32.ltb d (F32.of_Z 12) = true.
Proof.
  change (F32.of_Z 12) with (S754_finite false 12582912 (-20)).
  unfold F32.ltb, F32.leb, SFltb, SFleb.
  destruct d as [[]|[]| |[] md ed], r as [[]|[]| |[] mr er];
    cbv beta iota delta [SFcompare]; try done.
  destruct (Z.compare_spec ed er), (Z.compare_spec er (-20)), (Z.compare_spec ed (-20));
    try done; try lia;
    destruct (compare_cont_Eq_spec md mr), (compare_cont_Eq_spec mr 12582912),
      (compare_cont_Eq_spec md 12582912); try done; try lia.
Qed.

Lemma alone_alignment (d : float) :
  F32.ltb d (F32.of_Z 12) = false -> F32.ltb d (F32.of_Z 8) = false.
Proof.
  intros H. destruct (F32.ltb d (F32.of_Z 8)) eqn:E; [|done].
  rewrite (ltb_leb_12 d (F32.of_Z 8) E) in H; [done | vm_compute; reflexivity].
Qed.

Lemma separationRule_idle (self : FlockBird) (neighbours : list FlockBird) :
  Forall (fun other =>
            inSeparationRange self other = false
            \/ position other = position self /\ finitePosition self = true)
         neighbours ->
  separationRule self neighbours = Vec.zero.
Proof.
  intros H. unfold separationRule.
  match goal with |- context [foldl ?f _ _] => set (step := f) end.
  assert (Hfold : forall acc, foldl step acc neighbours = acc).
  { induction H as [|other nbs Ho _ IH]; intros [steer count]; [done|].
    cbn [foldl]. rewrite <- (IH (steer, count)) at 2. f_equal.
    unfold step. fold (distanceTo self other).
    destruct Ho as [Ho|[E F]].
    - unfold inSeparationRange in Ho. by rewrite Ho.
    - by rewrite (distanceTo_coincident self other E F). }
  by rewrite Hfold.
Qed.

Lemma alignmentRule_idle (self : FlockBird) (neighbours : list FlockBird) :
  Forall (fun other => F32.ltb (distanceTo self other) (F32.of_Z 8) = false) neighbours ->
  alignmentRule self neighbours = Vec.zero.
Proof.
  intros H. unfold alignmentRule. cbn zeta.
  match goal with |- context [foldl ?f _ _] => set (step := f) end.
  assert (Hfold : forall acc, foldl step acc neighbours = acc).
  { induction H as [|other nbs Ho _ IH]; intros [avg count]; [done|].
    cbn [foldl]. rewrite <- (IH (avg, count)) at 2. f_equal.
    unfold step. fold (distanceTo self other). by rewrite Ho. }
  by rewrite Hfold.
Qed.

Lemma cohesionRule_idle (self : FlockBird) (neighbours : list FlockBird) :
  Forall (fun other => F32.ltb (distanceTo self other) (F32.of_Z 12) = false) neighbours ->
  cohesionRule self neighbours = Vec.zero.
Proof.
  intros H. unfold cohesionRule. cbn zeta.
  match goal with |- context [foldl ?f _ _] => set (step := f) end.
  assert (Hfold : forall acc, foldl step acc neighbours = acc).
  { induction H as [|other nbs Ho _ IH]; intros [avg count]; [done|].
    cbn [foldl]. rewrite <- (IH (avg, count)) at 2. f_equal.
    unfold step. fold (distanceTo self other). by rewrite Ho. }
  by rewrite Hfold.
Qed.

Lemma add_zero_settled (x : float) :
  F32.add (F32.add x (F32.of_Z 0)) (F32.of_Z 0) = F32.add x (F32.of_Z 0).
Proof. by destruct x as [[]|[]| |s m e]. Qed.

Lemma add_zero_id (x : float) : negativeZero x = false -> F32.add x (F32.of_Z 0) = x.
Proof. by destruct x as [[]|[]| |s m e]. Qed.

(** X3: Birds stacked on one finite position are at distance 0 from each
    other: the guard [distance > 0] skips them, so the separation force is
    zero, the attraction towards a centre equal to the bird's own position is
    zero, and [normalize] of the zero difference returns the zero vector
    instead of dividing by zero. *)
Theorem coincident_birds_exert_no_force (self : FlockBird) (neighbours : list FlockBird) :
  finitePosition self = true ->
  Forall (fun other => position other = position self) neighbours ->
  separationRule self neighbours = Vec.zero
  /\ attractionRule self (Some (position self)) = Vec.zero
  /\ Vec.normalize (Vec.sub (position self) (position self)) = Vec.zero.
Proof.
  intros Hf Hall. split; [|split].
  - apply separationRule_idle. eapply Forall_impl; [exact Hall|].
    intros other E. right. by split.
  - unfold attractionRule. cbn zeta.
    fold (distanceTo {| position := position self; velocity := velocity self;
                        phase := phase self; speedMultiplier := speedMultiplier self;
                        separationRadius := separationRadius self |} self).
    apply andb_prop in Hf as [Hx Hy]. unfold distanceTo, Vec.sub. cbn [position].
    by rewrite (sub_self _ Hx), (sub_self _ Hy).
  - apply andb_prop in Hf as [Hx Hy]. unfold Vec.sub.
    by rewrite (sub_self _ Hx), (sub_self _ Hy).
Qed.

Section Lone.

Variables sinf cosf : float -> float.

(** X4: A bird with no flock-mate closer than 12 and a separation radius of at
    most 12 is steered by the wing flapping alone: the four rule forces are
    zero (the frame loop passes no attraction centre), so the steered velocity
    is the old velocity plus the flap terms; adding the zero forces only turns
    a negative zero component into a positive zero. *)
Theorem lone_bird_only_flaps (flock : list FlockBird) (i : nat) (self : FlockBird)
    (ms : Z) :
  alone self (others i flock) ->
  F32.leb (separationRadius self) (F32.of_Z 12) = true ->
  steeredVelocity sinf cosf flock i self None ms
  = Vec.add (Vec.add (velocity self) Vec.zero) (flap sinf cosf self ms)
  /\ (negativeZero (vx (velocity self)) = false ->
      negativeZero (vy (velocity self)) = false ->
      steeredVelocity sinf cosf flock i self None ms
      = Vec.add (velocity self) (flap sinf cosf self ms)).
Proof.
  intros Hal Hr.
  assert (E : steeredVelocity sinf cosf flock i self None ms
              = Vec.add (Vec.add (velocity self) Vec.zero) (flap sinf cosf self ms)).
  { unfold steeredVelocity. cbn zeta.
    rewrite separationRule_idle, alignmentRule_idle, cohesionRule_idle.
    - unfold attractionRule, Vec.add, Vec.scale, Vec.zero, flap. cbn [vx vy].
      change (F32.mul (F32.of_Z 0) (F32.lit 15 100)) with (F32.of_Z 0).
      change (F32.mul (F32.of_Z 0) (F32.lit 1 10)) with (F32.of_Z 0).
      change (F32.mul (F32.of_Z 0) (F32.lit 5 100)) with (F32.of_Z 0).
      change (F32.mul (F32.of_Z 0) (F32.lit 3 10)) with (F32.of_Z 0).
      by rewrite !add_zero_settled.
    - exact Hal.
    - eapply Forall_impl; [exact Hal|]. intros other. apply alone_alignment.
    - eapply Forall_impl; [exact Hal|]. intros other Ho. left.
      unfold inSeparationRange.
      destruct (F32.ltb (distanceTo self other) (separationRadius self)) eqn:El;
        [|by rewrite andb_false_r].
      change (F32.ltb (distanceTo self other) (F32.of_Z 12) = false) in Ho.
      pose proof (ltb_leb_12 _ _ El Hr) as H12. congruence. }
  split; [exact E|]. intros Hx Hy. rewrite E. unfold Vec.add, Vec.zero. cbn [vx vy].
  by rewrite (add_zero_id _ Hx), (add_zero_id _ Hy).
Qed.

End Lone.

(** ** Per-bird constants and the size of the flock *)

Section Update.
Variables (sinf cosf : float -> float) (color565 : Z -> Z -> Z -> Z).

Lemma updateBirds_Forall2 (ticks : nat -> Z) (birds : list FlockBird) :
  Forall2 sameConstants birds (updateBirds sinf cosf ticks birds).
Proof.
  unfold updateBirds.
  assert (H : forall (idxs : list nat) (cur : list FlockBird),
             Forall2 sameConstants birds cur ->
             Forall2 sameConstants birds
               (foldl (fun flock i =>
                         match flock !! i with
                         | Some bird =>
                             <[ i := updateFlocking sinf cosf flock i bird None (ticks i) ]> flock
                         | None => flock
                         end) cur idxs)).
  { induction idxs as [|i idxs IH]; intros cur Hcur; [done|].
    cbn [foldl]. apply IH.
    destruct (cur !! i) as [bird|] eqn:E; [|done].
    destruct (Forall2_lookup_r _ _ _ _ _ Hcur E) as (b0 & E0 & Hb).
    rewrite <- (list_insert_id birds i b0 E0).
    apply Forall2_insert; [done|].
    destruct Hb as (H1 & H2 & H3). by repeat split. }
  apply H. apply Forall2_same_length_lookup. split; [done|].
  intros i x y Hx Hy. assert (x = y) by congruence. by subst.
Qed.

Lemma updateBirds_length (ticks : nat -> Z) (birds : list FlockBird) :
  length (updateBirds sinf cosf ticks birds) = length birds.
Proof. symmetry. eapply Forall2_length, updateBirds_Forall2. Qed.

(** X5: The update loop of a frame keeps the number of birds and, bird by
    bird, the phase, the speed multiplier and the separation radius given by
    the constructor: [updateFlocking] writes position and velocity only. *)
Theorem updateBirds_keeps_constants (ticks : nat -> Z) (birds : list FlockBird) :
  length (updateBirds sinf cosf ticks birds) = length birds
  /\ Forall2 sameConstants birds (updateBirds sinf cosf ticks birds).
Proof. split; [apply updateBirds_length | apply updateBirds_Forall2]. Qed.

End Update.

Lemma forallb_seqZ (P : Z -> bool) (lo n : Z) :
  forallb P (seqZ lo n) = true -> forall z, lo <= z < lo + n -> P z = true.
Proof.
  intros H z Hz. rewrite forallb_forall in H. apply H.
  apply list_elem_of_In, elem_of_seqZ. lia.
Qed.

Lemma phase_in_range (p : Z) :
  0 <= p < 628 ->
  F32.geb (F32.div (F32.of_Z p) (F32.of_Z 100)) (F32.of_Z 0)
  && F32.ltb (F32.div (F32.of_Z p) (F32.of_Z 100)) (F32.lit 628 100) = true.
Proof.
  intros Hp.
  apply (forallb_seqZ (fun p => F32.geb (F32.div (F32.of_Z p) (F32.of_Z 100)) (F32.of_Z 0)
    && F32.ltb (F32.div (F32.of_Z p) (F32.of_Z 100)) (F32.lit 628 100)) 0 628);
    [vm_compute; reflexivity | lia].
Qed.

Lemma speedMultiplier_in_range (s : Z) :
  70 <= s < 130 ->
  F32.geb (F32.div (F32.of_Z s) (F32.of_Z 100)) (F32.lit 70 100)
  && F32.ltb (F32.div (F32.of_Z s) (F32.of_Z 100)) (F32.lit 130 100) = true.
Proof.
  intros Hs.
  apply (forallb_seqZ (fun s => F32.geb (F32.div (F32.of_Z s) (F32.of_Z 100)) (F32.lit 70 100)
    && F32.ltb (F32.div (F32.of_Z s) (F32.of_Z 100)) (F32.lit 130 100)) 70 60);
    [vm_compute; reflexivity | lia].
Qed.

Lemma separationRadius_in_range (q : Z) :
  200 <= q < 400 ->
  F32.geb (F32.div (F32.of_Z q) (F32.of_Z 100)) (F32.of_Z 2)
  && F32.ltb (F32.div (F32.of_Z q) (F32.of_Z 100)) (F32.of_Z 4) = true.
Proof.
  intros Hq.
  apply (forallb_seqZ (fun q => F32.geb (F32.div (F32.of_Z q) (F32.of_Z 100)) (F32.of_Z 2)
    && F32.ltb (F32.div (F32.of_Z q) (F32.of_Z 100)) (F32.of_Z 4)) 200 200);
    [vm_compute; reflexivity | lia].
Qed.

Lemma random_range (lo hi : Z) (d : Dice) :
  lo < hi -> lo <= fst (random lo hi d) < hi.
Proof.
  intros H. unfold random. cbn [fst].
  pose proof (Z.mod_pos_bound (d 0%nat) (hi - lo) ltac:(lia)). lia.
Qed.

Lemma FlockBird_new_constants (x y : float) (direction : Vector2D) (d : Dice) :
  constantsInRange (fst (FlockBird_new x y direction d)) = true.
Proof.
  unfold FlockBird_new, rand_bind, rand_ret.
  destruct (random 0 628 d) as [p d1] eqn:E1.
  destruct (random 70 130 d1) as [s d2] eqn:E2.
  destruct (random 200 400 d2) as [q d3] eqn:E3.
  destruct (random 80 120 d3) as [a d4].
  destruct (random 80 120 d4) as [c d5].
  cbn [fst]. unfold constantsInRange. cbn [phase speedMultiplier separationRadius].
  pose proof (random_range 0 628 d ltac:(lia)) as Hp. rewrite E1 in Hp.
  pose proof (random_range 70 130 d1 ltac:(lia)) as Hs. rewrite E2 in Hs.
  pose proof (random_range 200 400 d2 ltac:(lia)) as Hq. rewrite E3 in Hq.
  cbn [fst] in *.
  rewrite <- !andb_assoc.
  rewrite (andb_assoc (F32.geb (F32.div (F32.of_Z p) _) _)), (phase_in_range p Hp).
  cbn [andb].
  rewrite (andb_assoc (F32.geb (F32.div (F32.of_Z s) _) _)), (speedMultiplier_in_range s Hs).
  cbn [andb]. by apply separationRadius_in_range.
Qed.

Lemma formationBird_constants (baseX baseY : Z) (flightDir : Vector2D) (i : Z) (d : Dice) :
  constantsInRange (fst (formationBird baseX baseY flightDir i d)) = true.
Proof.
  unfold formationBird, rand_bind.
  destruct (random (-100) 100 d) as [jx d1].
  destruct (random (-100) 100 d1) as [jy d2].
  apply FlockBird_new_constants.
Qed.

Lemma createFlockFromDirection_constants (numBirds : Z) (direction : string) (d : Dice) :
  Forall (fun bird => constantsInRange bird = true)
         (fst (createFlockFromDirection numBirds direction d)).
Proof.
  unfold createFlockFromDirection, rand_bind.
  destruct (entryPoint direction d) as [[[baseX baseY] flightDir] d1].
  apply Forall_lookup. intros i bird Hb.
  apply rand_mapM_lookup in Hb as (a & d' & _ & ->).
  apply formationBird_constants.
Qed.

Section Frames.
Variables (sinf cosf : float -> float) (color565 : Z -> Z -> Z -> Z).

Lemma loop_structure (st : State) (f : Frame) :
  loop sinf cosf color565 st f = (st, Some [])
  \/ exists st1,
       sameSwarm st st1 /\ lastUpdate st1 = u32 (now f)
       /\ (fst (loop sinf cosf color565 st f) = st1
           \/ fst (loop sinf cosf color565 st f) = set_animationComplete true st1
           \/ textComplete st = false
              /\ fst (loop sinf cosf color565 st f)
                 = flockingStep sinf cosf st1 (u32 (now f)) f).
Proof.
  unfold loop. cbn zeta.
  destruct (_ <? 50); [by left|]. right.
  set (st1 := noteCompletion _ _).
  assert (H1 : sameSwarm st st1 /\ lastUpdate st1 = u32 (now f)).
  { unfold st1, noteCompletion. by destruct (_ && _). }
  exists st1. split; [apply H1|]. split; [apply H1|].
  destruct (finished _ st1); cbn [fst]; [by right; left|].
  change (textComplete (set_lastUpdate (u32 (now f)) st)) with (textComplete st).
  destruct (textComplete st); cbn [negb fst]; [by left | by right; right].
Qed.

Lemma spawnBlock_flock (st : State) (t : Z) (d : Dice) :
  spawnDue st t (remainingLeds st) = false /\ spawnBlock st t d = st
  \/ spawnDue st t (remainingLeds st) = true
     /\ spawnBlock st t d = spawnWave st t (remainingLeds st) d
     /\ (length (flock st) < 200)%nat
     /\ exists newFlock,
          flock (spawnBlock st t d) = flock st ++ newFlock
          /\ (1 <= length newFlock <= 50)%nat
          /\ newFlock = fst (createFlockFromDirection (min_int 50 (remainingLeds st))
                               (nth (Z.to_nat (currentDirectionIdx st)) directions EmptyString) d).
Proof.
  unfold spawnBlock. destruct (spawnDue st t (remainingLeds st)) eqn:E; [right|by left].
  split; [done|]. split; [done|].
  unfold spawnDue in E. apply andb_prop in E as [[Hrem _]%andb_prop Hlen].
  apply Z.gtb_lt in Hrem. apply Z.ltb_lt in Hlen.
  split; [lia|]. eexists. split; [reflexivity|]. split; [|reflexivity].
  rewrite createFlockFromDirection_length. unfold min_int.
  destruct (Z.ltb_spec (remainingLeds st) 50); lia.
Qed.

Lemma removeFlownOff_length (birds : list FlockBird) :
  (length (removeFlownOff birds) <= length birds)%nat.
Proof.
  unfold removeFlownOff. induction birds as [|b bs IH]; cbn; [lia|].
  destruct (negb (flownOff b)); cbn; lia.
Qed.

Lemma removeFlownOff_Forall (P : FlockBird -> Prop) (birds : list FlockBird) :
  Forall P birds -> Forall P (removeFlownOff birds).
Proof.
  rewrite !Forall_forall. intros H b Hb. apply H.
  apply list_elem_of_In in Hb. apply removeFlownOff_In in Hb as [Hb _].
  by apply list_elem_of_In.
Qed.

Lemma flockingStep_flock_eq (st : State) (t : Z) (f : Frame) :
  flock (flockingStep sinf cosf st t f)
  = removeFlownOff (updateBirds sinf cosf (now_bird f) (flock (spawnBlock st t (dice f)))).
Proof. reflexivity. Qed.

Lemma loop_flock_Forall (P : FlockBird -> Prop) (st : State) (f : Frame) :
  (forall a c, sameConstants a c -> P a -> P c) ->
  (forall n dir d, Forall P (fst (createFlockFromDirection n dir d))) ->
  Forall P (flock st) -> Forall P (flock (fst (loop sinf cosf color565 st f))).
Proof.
  intros Hupd Hnew Hst.
  destruct (loop_structure st f) as [->|(st1 & Hs & _ & [->|[->|[_ ->]]])]; try done.
  - destruct Hs as (_ & _ & -> & _). done.
  - destruct Hs as (_ & _ & Hf & _). cbn. by rewrite Hf.
  - rewrite flockingStep_flock_eq. apply removeFlownOff_Forall.
    assert (H0 : Forall P (flock (spawnBlock st1 (u32 (now f)) (dice f)))).
    { destruct (spawnBlock_flock st1 (u32 (now f)) (dice f))
        as [[_ ->]|(_ & _ & _ & nf & -> & _ & ->)].
      - destruct Hs as (_ & _ & -> & _). done.
      - apply Forall_app. split; [|apply Hnew].
        destruct Hs as (_ & _ & -> & _). done. }
    pose proof (updateBirds_Forall2 sinf cosf (now_bird f)
                  (flock (spawnBlock st1 (u32 (now f)) (dice f)))) as H2.
    revert H0 H2. generalize (flock (spawnBlock st1 (u32 (now f)) (dice f))).
    generalize (updateBirds sinf cosf (now_bird f)).
    intros upd l H0 H2. induction H2; [constructor|].
    inversion H0; subst. constructor; eauto.
Qed.

(** X6: In every state reached from [setup], every bird of the flock has its
    phase in [0, 6.28), its speed multiplier in [0.7, 1.3) and its separation
    radius in [2, 4), whatever the random numbers drawn were. *)
Theorem run_constants_in_range (ms : Z) (frames : list Frame) :
  Forall (fun bird => constantsInRange bird = true)
         (flock (run sinf cosf color565 ms frames)).
Proof.
  unfold run. induction frames as [|f frames IH] using rev_ind; [constructor|].
  rewrite play_snoc. apply loop_flock_Forall; [| |exact IH].
  - intros a c (H1 & H2 & H3). unfold constantsInRange. by rewrite H1, H2, H3.
  - intros. apply createFlockFromDirection_constants.
Qed.

Lemma loop_flock_length (st : State) (f : Frame) :
  (length (flock (fst (loop sinf cosf color565 st f))) <= length (flock st)
   \/ length (flock st) < 200
      /\ length (flock (fst (loop sinf cosf color565 st f))) <= length (flock st) + 50)%nat.
Proof.
  destruct (loop_structure st f) as [->|(st1 & Hs & _ & [->|[->|[_ ->]]])].
  - by left.
  - destruct Hs as (_ & _ & -> & _). by left.
  - destruct Hs as (_ & _ & Hf & _). cbn. rewrite Hf. by left.
  - rewrite flockingStep_flock_eq.
    pose proof (removeFlownOff_length (updateBirds sinf cosf (now_bird f)
                  (flock (spawnBlock st1 (u32 (now f)) (dice f))))) as H1.
    pose proof (updateBirds_length sinf cosf (now_bird f)
                (flock (spawnBlock st1 (u32 (now f)) (dice f)))) as H2.
    destruct Hs as (_ & _ & Hf & _).
    destruct (spawnBlock_flock st1 (u32 (now f)) (dice f))
      as [[_ E]|(_ & _ & Hlt & nf & E & Hn & _)]; rewrite E in *.
    + left. rewrite <- Hf. lia.
    + right. rewrite length_app in H2. rewrite <- Hf. lia.
Qed.

(** X7: In every state reached from [setup] the flock has at most 249 birds,
    and one frame adds at most 50. *)
Theorem run_flock_size_bound (ms : Z) (frames : list Frame) (f : Frame) :
  let st := run sinf cosf color565 ms frames in
  (length (flock st) <= 249
   /\ length (flock (fst (loop sinf cosf color565 st f))) <= length (flock st) + 50)%nat.
Proof.
  cbn zeta. split.
  - unfold run. induction frames as [|g frames IH] using rev_ind; [cbn; lia|].
    rewrite play_snoc.
    destruct (loop_flock_length (play sinf cosf color565 (fst (setup ms)) frames) g); lia.
  - destruct (loop_flock_length (run sinf cosf color565 ms frames) f); lia.
Qed.

End Frames.

(** ** The frame gate, the spawn schedule and the completion flags *)

Lemma u32_range (z : Z) : 0 <= u32 z < 2 ^ 32.
Proof. unfold u32. apply Z.mod_pos_bound. lia. Qed.

Lemma spawn_needs_three_seconds (n : Z) :
  0 <= n ->
  F32.gtb (F32.of_Z n) (F32.mul spawnInterval (F32.of_Z 1000)) = true -> 3000 < n.
Proof.
  intros H0 H. destruct (Z.lt_ge_cases 3000 n) as [|Hle]; [done|].
  assert (E : negb (F32.gtb (F32.of_Z n) (F32.mul spawnInterval (F32.of_Z 1000))) = true).
  { apply (forallb_seqZ (fun n => negb (F32.gtb (F32.of_Z n)
             (F32.mul spawnInterval (F32.of_Z 1000)))) 0 3001);
      [vm_compute; reflexivity | lia]. }
  by rewrite H in E.
Qed.

Section Schedule.
Variables (sinf cosf : float -> float) (color565 : Z -> Z -> Z -> Z).

Lemma flockingStep_schedule (st : State) (t : Z) (f : Frame) :
  lastSpawnTime (flockingStep sinf cosf st t f) = lastSpawnTime (spawnBlock st t (dice f))
  /\ currentDirectionIdx (flockingStep sinf cosf st t f)
     = currentDirectionIdx (spawnBlock st t (dice f)).
Proof. done. Qed.

(** X8: A frame either leaves the spawn clock and the direction index alone
    and does not lengthen the flock, or it spawns: then the text is incomplete,
    fewer than 200 birds were alive, more than 3000 ms have passed since the
    last spawn, the spawn clock is set to the time since start and the
    direction index advances by one modulo 8. *)
Theorem loop_spawn_schedule (st : State) (f : Frame) :
  let st' := fst (loop sinf cosf color565 st f) in
  let elapsed := u32 (u32 (now f) - startTime st) in
  lastSpawnTime st' = lastSpawnTime st
  /\ currentDirectionIdx st' = currentDirectionIdx st
  /\ (length (flock st') <= length (flock st))%nat
  \/ textComplete st = false
     /\ (length (flock st) < 200)%nat
     /\ 3000 < u32 (elapsed - lastSpawnTime st)
     /\ lastSpawnTime st' = elapsed
     /\ currentDirectionIdx st' = Z.rem (currentDirectionIdx st + 1) numDirections.
Proof.
  cbn zeta.
  destruct (loop_structure sinf cosf color565 st f)
    as [->|(st1 & Hs & _ & [->|[->|[Hc ->]]])].
  - left. cbn. done.
  - destruct Hs as (_ & _ & -> & _ & -> & ->). by left.
  - destruct Hs as (_ & _ & Hf & _ & H1 & H2). left. cbn. by rewrite Hf, H1, H2.
  - destruct Hs as (_ & _ & Hf & Hst & H1 & H2).
    destruct (flockingStep_schedule st1 (u32 (now f)) f) as [-> ->].
    rewrite flockingStep_flock_eq.
    pose proof (removeFlownOff_length (updateBirds sinf cosf (now_bird f)
                  (flock (spawnBlock st1 (u32 (now f)) (dice f))))) as L1.
    pose proof (updateBirds_length sinf cosf (now_bird f)
                (flock (spawnBlock st1 (u32 (now f)) (dice f)))) as L2.
    destruct (spawnBlock_flock st1 (u32 (now f)) (dice f))
      as [[_ E]|(Hdue & E & Hlt & _)].
    + left. rewrite E in *. rewrite H1, H2, <- Hf. repeat split; try done. lia.
    + right. rewrite E. cbn [spawnWave lastSpawnTime currentDirectionIdx].
      rewrite Hst, H2, <- Hf. repeat split; try done.
      unfold spawnDue in Hdue.
      apply andb_prop in Hdue as [[_ Hgt]%andb_prop _].
      rewrite Hst, H1 in Hgt.
      apply spawn_needs_three_seconds in Hgt; [done | apply u32_range].
Qed.

Lemma loop_lastUpdate (st : State) (f : Frame) :
  (u32 (u32 (now f) - lastUpdate st) <? 50) = false ->
  lastUpdate (fst (loop sinf cosf color565 st f)) = u32 (now f).
Proof.
  intros Hg. unfold loop. cbn zeta. rewrite Hg.
  set (st1 := noteCompletion _ _).
  assert (H1 : lastUpdate st1 = u32 (now f)).
  { unfold st1, noteCompletion. by destruct (_ && _). }
  destruct (finished _ st1); cbn [fst]; [done|].
  destruct (negb _); cbn [fst]; [|done].
  unfold flockingStep. cbn zeta. cbn [lastUpdate].
  unfold spawnBlock. by destruct (spawnDue _ _ _).
Qed.

(** X9: After a frame that passed the 50 ms gate, a call of [loop] entered
    less than 50 ms later returns at once: the state is unchanged and nothing
    is drawn. *)
Theorem frame_within_50ms_is_noop (st : State) (f g : Frame) :
  (u32 (u32 (now f) - lastUpdate st) <? 50) = false ->
  (u32 (u32 (now g) - u32 (now f)) <? 50) = true ->
  loop sinf cosf color565 (fst (loop sinf cosf color565 st f)) g
  = (fst (loop sinf cosf color565 st f), Some []).
Proof.
  intros Hf Hg. pose proof (loop_lastUpdate st f Hf) as E.
  unfold loop at 1. cbn zeta. by rewrite E, Hg.
Qed.

Lemma loop_completion_flags (st : State) (f : Frame) :
  (completionTime st = 0 \/ textComplete st = true) ->
  (animationComplete st = false \/ completionTime st <> 0) ->
  let st' := fst (loop sinf cosf color565 st f) in
  (completionTime st' = 0 \/ textComplete st' = true)
  /\ (animationComplete st' = false \/ completionTime st' <> 0)
  /\ (animationComplete st = false \/ animationComplete st' = true).
Proof.
  intros I1 I2. cbn zeta.
  destruct (textComplete st) eqn:Hc.
  - destruct (loop_complete sinf cosf color565 st f Hc) as (Ec & Et & _ & Hk).
    assert (Hc' : textComplete (fst (loop sinf cosf color565 st f)) = true).
    { unfold textComplete in *. by rewrite Ec, Et. }
    split; [by right|]. clear Ec Et Hk Hc'.
    unfold loop. cbn zeta.
    destruct (_ <? 50); [cbn; destruct (animationComplete st); auto|].
    unfold noteCompletion.
    change (textComplete (set_lastUpdate (u32 (now f)) st)) with (textComplete st).
    change (completionTime (set_lastUpdate (u32 (now f)) st)) with (completionTime st).
    rewrite Hc. cbn [andb negb].
    destruct (completionTime st =? 0) eqn:Ez.
    + apply Z.eqb_eq in Ez. destruct I2 as [I2|I2]; [|done].
      unfold finished. cbn [completionTime set_completionTime].
      destruct (u32 (now f) =? 0) eqn:E0; cbn [negb andb fst].
      * cbn. rewrite I2. auto.
      * destruct (1000 <=? _); cbn; apply Z.eqb_neq in E0; rewrite ?I2; auto.
    + apply Z.eqb_neq in Ez.
      destruct (finished _ _); cbn [fst animationComplete completionTime
        set_animationComplete set_lastUpdate]; destruct (animationComplete st); auto.
  - destruct I1 as [I1|I1]; [|done].
    destruct I2 as [I2|I2]; [|done].
    unfold loop. cbn zeta.
    destruct (_ <? 50); [cbn; auto|].
    unfold noteCompletion.
    change (textComplete (set_lastUpdate (u32 (now f)) st)) with (textComplete st).
    rewrite Hc. cbn [andb negb].
    unfold finished. cbn [completionTime set_lastUpdate]. rewrite I1.
    cbn [Z.eqb negb andb fst].
    unfold flockingStep. cbn zeta. cbn [completionTime animationComplete].
    unfold spawnBlock. destruct (spawnDue _ _ _); cbn; auto.
Qed.

(** X10: In every state reached from [setup]: a completion time is recorded
    only when the text is complete; [animationComplete] is set only after a
    completion time was recorded; and once set it stays set. *)
Theorem run_completion_flags (ms : Z) (frames more : list Frame) :
  let st := run sinf cosf color565 ms frames in
  (completionTime st = 0 \/ textComplete st = true)
  /\ (animationComplete st = false \/ completionTime st <> 0)
  /\ (animationComplete st = false
      \/ animationComplete (run sinf cosf color565 ms (frames ++ more)) = true).
Proof.
  cbn zeta.
  assert (Hinv : forall fs,
            let st := run sinf cosf color565 ms fs in
            (completionTime st = 0 \/ textComplete st = true)
            /\ (animationComplete st = false \/ completionTime st <> 0)).
  { unfold run. induction fs as [|f fs IH] using rev_ind;
      [split; left; reflexivity|].
    rewrite play_snoc. destruct IH as [I1 I2].
    destruct (loop_completion_flags _ f I1 I2) as (A & B & _). done. }
  destruct (Hinv frames) as [I1 I2]. split; [done|]. split; [done|].
  destruct (animationComplete (run sinf cosf color565 ms frames)) eqn:Ha; [right|by left].
  induction more as [|f more IH] using rev_ind; [by rewrite app_nil_r|].
  rewrite app_assoc. unfold run in *. rewrite play_snoc.
  destruct (Hinv (frames ++ more)) as [J1 J2]. unfold run in J1, J2.
  destruct (loop_completion_flags _ f J1 J2) as (_ & _ & [C|C]); [congruence|done].
Qed.

End Schedule.

(** ** The target mask and the first three seconds *)

Lemma mask_on_text_area (p : Position) :
  p ∈ getThemeParkWaitsPixels -> onTextArea p = true.
Proof.
  intros Hp.
  assert (H : forallb onTextArea (elements getThemeParkWaitsPixels) = true)
    by (vm_compute; reflexivity).
  revert H Hp. generalize getThemeParkWaitsPixels. intros mask H Hp.
  rewrite forallb_forall in H. apply H.
  apply list_elem_of_In, elem_of_elements. exact Hp.
Qed.

Lemma mask_size : size getThemeParkWaitsPixels = 507%nat.
Proof. vm_compute. reflexivity. Qed.

Section Dark.
Variables (sinf cosf : float -> float) (color565 : Z -> Z -> Z -> Z).

Lemma play_target (st : State) (frames : list Frame) :
  targetPixels (play sinf cosf color565 st frames) = targetPixels st.
Proof.
  induction frames as [|f frames IH] using rev_ind; [done|].
  rewrite play_snoc.
  destruct (loop_captured sinf cosf color565 (play sinf cosf color565 st frames) f)
    as (-> & _). exact IH.
Qed.

(** X11: With the target mask of the sketch, every pixel ever captured lies in
    columns 4..59 and rows 3..30, hence on the 64x32 matrix: the off-grid
    column 64 and row 32 that [getPixelPos] can produce are never lit. *)
Theorem captured_pixels_on_text_area (st : State) (frames : list Frame) (p : Position) :
  targetPixels st = getThemeParkWaitsPixels ->
  capturedPixels st ⊆ targetPixels st ->
  p ∈ capturedPixels (play sinf cosf color565 st frames) ->
  4 <= px p <= 59 /\ 3 <= py p <= 30
  /\ 0 <= px p < WIDTH /\ 0 <= py p < HEIGHT.
Proof.
  intros Ht Hc Hp.
  pose proof (play_captured sinf cosf color565 st frames Hc) as Hsub.
  rewrite play_target, Ht in Hsub.
  apply Hsub, mask_on_text_area in Hp.
  unfold onTextArea in Hp.
  apply andb_prop in Hp as [[[H1 H2]%andb_prop H3]%andb_prop H4].
  unfold WIDTH, HEIGHT. lia.
Qed.

Lemma render_empty (timeElapsed : float) (st : State) :
  capturedPixels st = ∅ -> flock st = [] ->
  render color565 timeElapsed st = Some [FillScreen 0; Show].
Proof.
  intros Hc Hf. unfold render, drawText, drawBirds, inOrder.
  rewrite Hc, Hf, elements_empty. reflexivity.
Qed.

Lemma early_loop (ms : Z) (st : State) (f : Frame) :
  earlyFrame ms f ->
  targetPixels st = getThemeParkWaitsPixels -> capturedPixels st = ∅ ->
  flock st = [] -> startTime st = u32 ms -> lastSpawnTime st = 0 ->
  currentDirectionIdx st = 0 ->
  let st' := fst (loop sinf cosf color565 st f) in
  (targetPixels st' = getThemeParkWaitsPixels /\ capturedPixels st' = ∅
   /\ flock st' = [] /\ startTime st' = u32 ms /\ lastSpawnTime st' = 0
   /\ currentDirectionIdx st' = 0)
  /\ (snd (loop sinf cosf color565 st f) = Some []
      \/ snd (loop sinf cosf color565 st f) = Some [FillScreen 0; Show]).
Proof.
  intros He Ht Hc Hf Hs Hl Hi. cbn zeta.
  assert (Hinc : textComplete st = false).
  { unfold textComplete. rewrite Ht, Hc, mask_size. reflexivity. }
  unfold loop. cbn zeta.
  destruct (_ <? 50); [cbn; auto 10|].
  unfold noteCompletion.
  change (textComplete (set_lastUpdate (u32 (now f)) st)) with (textComplete st).
  rewrite Hinc. cbn [andb negb].
  destruct (finished _ _); cbn [fst snd]; [cbn; auto 10|].
  assert (Hsp : spawnBlock (set_lastUpdate (u32 (now f)) st) (u32 (now f)) (dice f)
                = set_lastUpdate (u32 (now f)) st).
  { unfold spawnBlock.
    destruct (spawnDue _ _ _) eqn:Hdue; [exfalso|done].
    unfold spawnDue in Hdue. apply andb_prop in Hdue as [[_ Hgt]%andb_prop _].
    cbn [startTime lastSpawnTime set_lastUpdate] in Hgt. rewrite Hs, Hl in Hgt.
    apply spawn_needs_three_seconds in Hgt; [|apply u32_range].
    unfold earlyFrame in He. rewrite Z.sub_0_r in Hgt.
    unfold u32 in Hgt at 1. rewrite Z.mod_small in Hgt by apply u32_range. lia. }
  assert (Hfl : flockingStep sinf cosf (set_lastUpdate (u32 (now f)) st) (u32 (now f)) f
                = set_lastUpdate (u32 (now f)) st).
  { unfold flockingStep. cbn zeta. rewrite Hsp. clear Hsp.
    destruct st as [tp cp fl sT lU lS idx ac ct].
    cbn [flock] in Hf. subst fl. reflexivity. }
  rewrite Hfl. split; [cbn; auto 10|].
  right. by apply render_empty.
Qed.

(** X12: While no frame is entered more than 3000 ms after [setup], the flock
    and the captured set stay empty and the direction index stays 0; such a
    frame draws nothing or just clears the screen. *)
Theorem dark_for_three_seconds (ms : Z) (frames : list Frame) (f : Frame) :
  Forall (earlyFrame ms) frames -> earlyFrame ms f ->
  let st := run sinf cosf color565 ms frames in
  flock st = [] /\ capturedPixels st = ∅ /\ currentDirectionIdx st = 0
  /\ (snd (loop sinf cosf color565 st f) = Some []
      \/ snd (loop sinf cosf color565 st f) = Some [FillScreen 0; Show]).
Proof.
  intros Hfs Hf. cbn zeta.
  assert (Hinv : let st := run sinf cosf color565 ms frames in
                 targetPixels st = getThemeParkWaitsPixels /\ capturedPixels st = ∅
                 /\ flock st = [] /\ startTime st = u32 ms /\ lastSpawnTime st = 0
                 /\ currentDirectionIdx st = 0).
  { unfold run. induction frames as [|g frames IH] using rev_ind; [cbn; auto 10|].
    apply Forall_app in Hfs as [Hfs Hg]. inversion Hg as [|? ? Hg' _]; subst.
    rewrite play_snoc. destruct (IH Hfs) as (A & B & C & D & E & F).
    by destruct (early_loop ms _ g Hg' A B C D E F) as [H _]. }
  destruct Hinv as (A & B & C & D & E & F).
  destruct (early_loop ms _ f Hf A B C D E F) as [_ H]. done.
Qed.

End Dark.

(** ** Rendering *)

Section Render.
Variable color565 : Z -> Z -> Z -> Z.

(** X13: When the text colour is defined, the text pass issues exactly one
    [drawPixel] per captured pixel, at that pixel's coordinates, in the
    iteration order of the set, which is strictly increasing for
    [Position::operator<] and has no duplicates. *)
Theorem drawText_draws_each_pixel_once (timeElapsed : float)
    (capturedPixels : gset Position) (calls : list Gfx) :
  drawText color565 timeElapsed capturedPixels = Some calls ->
  Forall2 (fun pixel call => drawnAt call = Some pixel) (inOrder capturedPixels) calls
  /\ length calls = size capturedPixels
  /\ inOrder capturedPixels ≡ₚ elements capturedPixels
  /\ NoDup (inOrder capturedPixels)
  /\ StronglySorted (fun a c => Position_ltb a c = true) (inOrder capturedPixels).
Proof.
  intros H. unfold drawText in H. apply mapM_Some_1 in H.
  destruct (inOrder_sorted capturedPixels) as (Hp & Hn & Hs).
  assert (H2 : Forall2 (fun pixel call => drawnAt call = Some pixel)
                 (inOrder capturedPixels) calls).
  { eapply Forall2_impl; [exact H|]. intros [x y] call. cbn.
    destruct (getDynamicTextColor _ _); [|done]. by intros [= <-]. }
  split; [exact H2|]. split; [|done].
  apply Forall2_length in H2. rewrite <- H2, Hp. reflexivity.
Qed.

Lemma drawBird_cases (timeElapsed : float) (i : nat) (bird : FlockBird) (cs : list Gfx) :
  validPosition bird = true ->
  drawBird color565 timeElapsed (i, bird) = Some cs ->
  isOnScreen bird = false /\ cs = []
  \/ isOnScreen bird = true
     /\ exists p c, getPixelPos bird = Some p /\ cs = [DrawPixel (px p) (py p) c]
                    /\ 0 <= px p <= 64 /\ 0 <= py p <= 32.
Proof.
  intros [Hx Hy]%andb_prop. unfold drawBird.
  destruct (isOnScreen bird) eqn:Hon; [|intros [= <-]; by left].
  destruct (onscreen_pixel_defined bird Hx Hy Hon) as (p & Ep & Hpx & Hpy).
  rewrite Ep. destruct (getDynamicFlockColor _ _) as [col|]; [|done].
  intros [= <-]. right. split; [done|]. eauto 10.
Qed.

(** X14: When the bird pass succeeds on birds with valid coordinates, it draws
    exactly the on-screen birds, in flock order, each at its rounded position,
    and every drawn coordinate lies in 0..64 x 0..32 (bounds included). *)
Theorem drawBirds_draws_onscreen_birds (timeElapsed : float) (birds : list FlockBird)
    (calls : list Gfx) :
  Forall (fun bird => validPosition bird = true) birds ->
  drawBirds color565 timeElapsed birds = Some calls ->
  Forall2 (fun bird call => drawnAt call = getPixelPos bird)
          (List.filter isOnScreen birds) calls
  /\ Forall (fun call => exists p, drawnAt call = Some p
                                   /\ 0 <= px p <= WIDTH /\ 0 <= py p <= HEIGHT) calls.
Proof.
  unfold drawBirds. intros Hv H.
  destruct (mapM _ _) as [css|] eqn:E; [|done]. injection H as <-.
  apply mapM_Some_1 in E.
  assert (G : forall (g : nat -> FlockBird -> nat * FlockBird) bs css,
             (forall i b, snd (g i b) = b) ->
             Forall (fun bird => validPosition bird = true) bs ->
             Forall2 (fun x y => drawBird color565 timeElapsed x = Some y) (imap g bs) css ->
             Forall2 (fun bird call => drawnAt call = getPixelPos bird)
                     (List.filter isOnScreen bs) (concat css)
             /\ Forall (fun call => exists p, drawnAt call = Some p
                                    /\ 0 <= px p <= WIDTH /\ 0 <= py p <= HEIGHT)
                       (concat css)).
  { clear. intros g bs. revert g.
    induction bs as [|b bs IH]; intros g css Hg Hv H.
    - cbn in H. apply Forall2_nil_inv_l in H as ->. cbn. split; constructor.
    - rewrite imap_cons in H. inversion H as [|x cs l1 css' Hd Hrest]; subst.
      inversion Hv as [|? ? Hvb Hvbs]; subst.
      destruct (IH (g ∘ S) css' (fun i b => Hg (S i) b) Hvbs Hrest) as [IH1 IH2].
      destruct (g 0%nat b) as [i b'] eqn:Eg.
      assert (b' = b) by (specialize (Hg 0%nat b); by rewrite Eg in Hg). subst b'.
      cbn [concat List.filter].
      destruct (drawBird_cases timeElapsed i b cs Hvb Hd)
        as [[Hoff ->]|(Hon & p & c & Ep & -> & Hpx & Hpy)]; rewrite ?Hoff, ?Hon.
      + done.
      + cbn. split.
        * constructor; [rewrite Ep; by destruct p | exact IH1].
        * constructor; [|exact IH2]. exists p.
          split; [by destruct p | unfold WIDTH, HEIGHT; lia]. }
  by apply (G (fun i bird => (i, bird))).
Qed.

End Render.

(** ** Velocity and position of new birds *)

Lemma forallb_seqZ2 (P : Z -> Z -> bool) (lo1 n1 lo2 n2 : Z) :
  forallb (fun a => forallb (P a) (seqZ lo2 n2)) (seqZ lo1 n1) = true ->
  forall a c, lo1 <= a < lo1 + n1 -> lo2 <= c < lo2 + n2 -> P a c = true.
Proof.
  intros H a c Ha Hc.
  apply (forallb_seqZ (P a) lo2 n2); [|exact Hc].
  by apply (forallb_seqZ (fun a => forallb (P a) (seqZ lo2 n2)) lo1 n1).
Qed.

Lemma formationBird_velocity (baseX baseY : Z) (flightDir : Vector2D) (i : Z) (d : Dice) :
  exists a c,
    80 <= a < 120 /\ 80 <= c < 120
    /\ velocity (fst (formationBird baseX baseY flightDir i d))
       = mkVector2D (scaled (vx flightDir) a) (scaled (vy flightDir) c).
Proof.
  exists (80 + d 5%nat mod (120 - 80)), (80 + d 6%nat mod (120 - 80)).
  split; [|split]; [pose proof (Z.mod_pos_bound (d 5%nat) (120 - 80)); lia
                   |pose proof (Z.mod_pos_bound (d 6%nat) (120 - 80)); lia|].
  reflexivity.
Qed.

Lemma entryPoint_flight (direction : string) (d : Dice) :
  exists k,
    -50 <= k < 50
    /\ snd (fst (entryPoint direction d)) =
       let lateral := F32.div (F32.of_Z k) (F32.of_Z 100) in
       if String.eqb direction "left" then mkVector2D (F32.of_Z 2) lateral
       else if String.eqb direction "right" then mkVector2D (F32.of_Z (-2)) lateral
       else if String.eqb direction "top" then mkVector2D lateral (F32.of_Z 2)
       else if String.eqb direction "bottom" then mkVector2D lateral (F32.of_Z (-2))
       else mkVector2D F32.one F32.one.
Proof.
  exists (-50 + d 0%nat mod (50 - -50)).
  split; [pose proof (Z.mod_pos_bound (d 0%nat) (50 - -50)); lia|].
  unfold entryPoint. cbn zeta.
  repeat (match goal with |- context [String.eqb ?a ?c] => destruct (String.eqb a c) end;
          [reflexivity|]).
  reflexivity.
Qed.

Lemma forward_speed (a : Z) :
  80 <= a < 120 ->
  between (F32.lit 16 10) (F32.lit 24 10) (scaled (F32.of_Z 2) a)
  && (F32.ltb (F32.lit (-24) 10) (scaled (F32.of_Z (-2)) a)
      && F32.leb (scaled (F32.of_Z (-2)) a) (F32.lit (-16) 10))
  && between (F32.lit 8 10) (F32.lit 12 10) (scaled F32.one a) = true.
Proof.
  intros Ha.
  apply (forallb_seqZ (fun a =>
    between (F32.lit 16 10) (F32.lit 24 10) (scaled (F32.of_Z 2) a)
    && (F32.ltb (F32.lit (-24) 10) (scaled (F32.of_Z (-2)) a)
        && F32.leb (scaled (F32.of_Z (-2)) a) (F32.lit (-16) 10))
    && between (F32.lit 8 10) (F32.lit 12 10) (scaled F32.one a)) 80 40);
    [vm_compute; reflexivity | lia].
Qed.

Lemma lateral_speed (k c : Z) :
  -50 <= k < 50 -> 80 <= c < 120 ->
  F32.ltb (F32.lit (-6) 10) (scaled (F32.div (F32.of_Z k) (F32.of_Z 100)) c)
  && F32.ltb (scaled (F32.div (F32.of_Z k) (F32.of_Z 100)) c) (F32.lit 6 10) = true.
Proof.
  intros Hk Hc.
  apply (forallb_seqZ2 (fun k c =>
    F32.ltb (F32.lit (-6) 10) (scaled (F32.div (F32.of_Z k) (F32.of_Z 100)) c)
    && F32.ltb (scaled (F32.div (F32.of_Z k) (F32.of_Z 100)) c) (F32.lit 6 10))
    (-50) 100 80 40); [vm_compute; reflexivity | lia | lia].
Qed.

Lemma created_bird (numBirds : Z) (direction : string) (d : Dice) (i : nat)
    (bird : FlockBird) :
  fst (createFlockFromDirection numBirds direction d) !! i = Some bird ->
  Z.of_nat i < numBirds
  /\ exists d',
       bird = fst (formationBird (fst (fst (fst (entryPoint direction d))))
                     (snd (fst (fst (entryPoint direction d))))
                     (snd (fst (entryPoint direction d))) (Z.of_nat i) d').
Proof.
  unfold createFlockFromDirection, rand_bind.
  destruct (entryPoint direction d) as [[[baseX baseY] flightDir] d1]. cbn [fst snd].
  intros (a & d' & Ha & ->)%rand_mapM_lookup.
  apply lookup_seqZ in Ha as [-> Hlt]. rewrite Z.add_0_l. split; [lia|]. by exists d'.
Qed.

(** X15: Every bird of a new wave flies into the screen: from the left its
    horizontal speed is in [1.6, 2.4), from the right in (-2.4, -1.6], from the
    top its vertical speed is in [1.6, 2.4), from the bottom in (-2.4, -1.6],
    the lateral speed being strictly between -0.6 and 0.6; for any other
    direction both components are in [0.8, 1.2). *)
Theorem spawned_birds_fly_inward (numBirds : Z) (direction : string) (d : Dice)
    (i : nat) (bird : FlockBird) :
  fst (createFlockFromDirection numBirds direction d) !! i = Some bird ->
  flightSpeedOk direction (velocity bird) = true.
Proof.
  intros (_ & d' & ->)%created_bird.
  destruct (formationBird_velocity (fst (fst (fst (entryPoint direction d))))
              (snd (fst (fst (entryPoint direction d))))
              (snd (fst (entryPoint direction d))) (Z.of_nat i) d')
    as (a & c & Ha & Hc & ->).
  destruct (entryPoint_flight direction d) as (k & Hk & ->). cbn zeta.
  pose proof (forward_speed a Ha) as Fa. pose proof (forward_speed c Hc) as Fc.
  pose proof (lateral_speed k a Hk Ha) as La. pose proof (lateral_speed k c Hk Hc) as Lc.
  apply andb_prop in Fa as [[Fa1 [Fa2 Fa2']%andb_prop]%andb_prop Fa3].
  apply andb_prop in Fc as [[Fc1 [Fc2 Fc2']%andb_prop]%andb_prop Fc3].
  apply andb_prop in La as [La La']. apply andb_prop in Lc as [Lc Lc'].
  unfold flightSpeedOk.
  repeat (match goal with |- context [String.eqb ?a ?c] => destruct (String.eqb a c) end;
          [cbn [vx vy];
           rewrite ?Fa1, ?Fa2, ?Fa2', ?Fc1, ?Fc2, ?Fc2', ?La, ?La', ?Lc, ?Lc'; reflexivity|]).
  cbn [vx vy]. by rewrite Fa3, Fc3.
Qed.

Lemma created_position (numBirds : Z) (direction : string) (d : Dice) (i : nat)
    (bird : FlockBird) :
  fst (createFlockFromDirection numBirds direction d) !! i = Some bird ->
  Z.of_nat i < numBirds
  /\ exists col jx jy,
       0 <= col < 8 /\ -100 <= jx < 100 /\ -100 <= jy < 100
       /\ position bird =
          let '(baseX, baseY) :=
            if String.eqb direction "left" then (-10, 16)
            else if String.eqb direction "right" then (74, 16)
            else if String.eqb direction "top" then (32, -10)
            else if String.eqb direction "bottom" then (32, 42)
            else (32, 16) in
          mkVector2D (spawnCoord baseX ((col - 4) * 2) jx)
                     (spawnCoord baseY (Z.of_nat i / 8 * 3) jy).
Proof.
  intros (Hlt & d' & ->)%created_bird. split; [done|].
  pose proof (entryPoint_base direction d) as Hb.
  destruct (entryPoint direction d) as [[[baseX baseY] flightDir] d1].
  cbn [fst snd] in *.
  destruct (formationBird_position baseX baseY flightDir (Z.of_nat i) d')
    as (jx & jy & Hjx & Hjy & ->).
  exists (Z.rem (Z.of_nat i) 8), jx, jy.
  split; [|split; [done|split; [done|]]].
  { rewrite Z.rem_mod_nonneg by lia. apply Z.mod_pos_bound. lia. }
  rewrite <- Hb. unfold gridOffset, spawnCoord. cbn [fst snd].
  by rewrite Z.quot_div_nonneg by lia.
Qed.

Lemma left_column_off_screen (col jx : Z) :
  0 <= col < 8 -> -100 <= jx < 100 ->
  F32.geb (spawnCoord (-10) ((col - 4) * 2) jx) (F32.of_Z 0) = false.
Proof.
  intros Hc Hj.
  apply negb_true_iff.
  apply (forallb_seqZ2 (fun col jx =>
           negb (F32.geb (spawnCoord (-10) ((col - 4) * 2) jx) (F32.of_Z 0)))
           0 8 (-100) 200); [vm_compute; reflexivity | lia | lia].
Qed.

Lemma right_column_off_screen (col jx : Z) :
  0 <= col < 8 -> -100 <= jx < 100 ->
  F32.ltb (spawnCoord 74 ((col - 4) * 2) jx) (F32.of_Z WIDTH) = false.
Proof.
  intros Hc Hj.
  apply negb_true_iff.
  apply (forallb_seqZ2 (fun col jx =>
           negb (F32.ltb (spawnCoord 74 ((col - 4) * 2) jx) (F32.of_Z WIDTH)))
           0 8 (-100) 200); [vm_compute; reflexivity | lia | lia].
Qed.

Lemma top_row_off_screen (row jy : Z) :
  0 <= row < 4 -> -100 <= jy < 100 ->
  F32.geb (spawnCoord (-10) (row * 3) jy) (F32.of_Z 0) = false.
Proof.
  intros Hc Hj.
  apply negb_true_iff.
  apply (forallb_seqZ2 (fun row jy =>
           negb (F32.geb (spawnCoord (-10) (row * 3) jy) (F32.of_Z 0)))
           0 4 (-100) 200); [vm_compute; reflexivity | lia | lia].
Qed.

Lemma bottom_row_off_screen (row jy : Z) :
  0 <= row < 7 -> -100 <= jy < 100 ->
  F32.ltb (spawnCoord 42 (row * 3) jy) (F32.of_Z HEIGHT) = false.
Proof.
  intros Hc Hj.
  apply negb_true_iff.
  apply (forallb_seqZ2 (fun row jy =>
           negb (F32.ltb (spawnCoord 42 (row * 3) jy) (F32.of_Z HEIGHT)))
           0 7 (-100) 200); [vm_compute; reflexivity | lia | lia].
Qed.

Lemma bottom_last_row_beyond_margin (jy : Z) :
  -100 <= jy < 100 ->
  F32.gtb (spawnCoord 42 (6 * 3) jy) (F32.of_Z 57) = true.
Proof.
  intros Hj.
  apply (forallb_seqZ (fun jy => F32.gtb (spawnCoord 42 (6 * 3) jy) (F32.of_Z 57))
           (-100) 200); [vm_compute; reflexivity | lia].
Qed.

Lemma top_back_rows_on_screen (col row jx jy : Z) :
  0 <= col < 8 -> 4 <= row < 7 -> -100 <= jx < 100 -> -100 <= jy < 100 ->
  F32.geb (spawnCoord 32 ((col - 4) * 2) jx) (F32.of_Z 0)
  && F32.ltb (spawnCoord 32 ((col - 4) * 2) jx) (F32.of_Z WIDTH) = true
  /\ F32.geb (spawnCoord (-10) (row * 3) jy) (F32.of_Z 0)
     && F32.ltb (spawnCoord (-10) (row * 3) jy) (F32.of_Z HEIGHT) = true.
Proof.
  intros Hc Hr Hjx Hjy. split.
  - apply (forallb_seqZ2 (fun col jx =>
             F32.geb (spawnCoord 32 ((col - 4) * 2) jx) (F32.of_Z 0)
             && F32.ltb (spawnCoord 32 ((col - 4) * 2) jx) (F32.of_Z WIDTH))
             0 8 (-100) 200); [vm_compute; reflexivity | lia | lia].
  - apply (forallb_seqZ2 (fun row jy =>
             F32.geb (spawnCoord (-10) (row * 3) jy) (F32.of_Z 0)
             && F32.ltb (spawnCoord (-10) (row * 3) jy) (F32.of_Z HEIGHT))
             4 3 (-100) 200); [vm_compute; reflexivity | lia | lia].
Qed.

(** X16: In a wave of at most 50 birds every bird entering from the left, the
    right or the bottom is created off screen, and so are the first four rows
    (indices below 32) of a wave entering from the top. *)
Theorem wave_starts_off_screen (numBirds : Z) (direction : string) (d : Dice)
    (i : nat) (bird : FlockBird) :
  numBirds <= 50 ->
  startsOutside direction (Z.of_nat i) = true ->
  fst (createFlockFromDirection numBirds direction d) !! i = Some bird ->
  isOnScreen bird = false.
Proof.
  intros Hn Hs (Hlt & col & jx & jy & Hc & Hjx & Hjy & Hp)%created_position.
  assert (Hrow : 0 <= Z.of_nat i / 8 < 7)
    by (split; [apply Z.div_pos; lia | apply Z.div_lt_upper_bound; lia]).
  unfold isOnScreen. rewrite Hp. clear Hp. unfold startsOutside in Hs.
  destruct (String.eqb_spec direction "left") as [->|_].
  { cbn [vx vy]. by rewrite left_column_off_screen. }
  destruct (String.eqb_spec direction "right") as [->|_].
  { cbn [vx vy]. rewrite right_column_off_screen by done. by rewrite andb_false_r. }
  destruct (String.eqb_spec direction "top") as [->|_].
  { cbn [vx vy]. cbn in Hs. apply Z.ltb_lt in Hs.
    rewrite top_row_off_screen; [by rewrite andb_false_r|
      split; [lia | apply Z.div_lt_upper_bound; lia] | done]. }
  destruct (String.eqb_spec direction "bottom") as [->|_]; [|done].
  cbn [vx vy]. rewrite bottom_row_off_screen by done. by rewrite andb_false_r.
Qed.

(** X17: In a wave entering from the top, the birds with index 32 and above
    (rows 4 to 6 of the formation, which extends downwards from y = -10) are
    created on the screen. *)
Theorem top_wave_back_rows_start_on_screen (numBirds : Z) (d : Dice) (i : nat)
    (bird : FlockBird) :
  numBirds <= 50 -> (32 <= i)%nat ->
  fst (createFlockFromDirection numBirds "top" d) !! i = Some bird ->
  isOnScreen bird = true.
Proof.
  intros Hn Hi (Hlt & col & jx & jy & Hc & Hjx & Hjy & Hp)%created_position.
  assert (Hrow : 4 <= Z.of_nat i / 8 < 7)
    by (split; [apply Z.div_le_lower_bound; lia | apply Z.div_lt_upper_bound; lia]).
  unfold isOnScreen. rewrite Hp. cbn [String.eqb Ascii.eqb Bool.eqb vx vy].
  destruct (top_back_rows_on_screen col (Z.of_nat i / 8) jx jy Hc Hrow Hjx Hjy) as [H1 H2].
  rewrite H1. exact H2.
Qed.

(** X18: In a wave entering from the bottom, the birds of formation row 6
    (indices 48 to 55) are created with y > 57, beyond the despawn margin:
    the cleanup predicate already holds for them. *)
Theorem bottom_wave_last_row_is_discarded (numBirds : Z) (d : Dice) (i : nat)
    (bird : FlockBird) :
  (48 <= i < 56)%nat ->
  fst (createFlockFromDirection numBirds "bottom" d) !! i = Some bird ->
  flownOff bird = true /\ removeFlownOff [bird] = [].
Proof.
  intros Hi (Hlt & col & jx & jy & Hc & Hjx & Hjy & Hp)%created_position.
  assert (Hrow : Z.of_nat i / 8 = 6)
    by (symmetry; apply (Z.div_unique _ _ _ (Z.of_nat i - 48)); lia).
  assert (Hf : flownOff bird = true).
  { unfold flownOff. rewrite Hp. cbn [String.eqb Ascii.eqb Bool.eqb vx vy].
    rewrite Hrow, bottom_last_row_beyond_margin by done. by rewrite orb_true_r. }
  split; [done|]. unfold removeFlownOff. cbn. by rewrite Hf.
Qed.

(** * The theorems at sample inputs *)

Lemma completion_freezes_capture_witness :
  textComplete completeState = true
  /\ capturedPixels
       (play sin_at_zero cos_at_zero rgb565 completeState [frameAt 60; frameAt 120])
     = {[ mkPosition 1 1 ]}
  /\ completionTime
       (play sin_at_zero cos_at_zero rgb565 completeState [frameAt 60; frameAt 120])
     = 60.
Proof.
  split; [vm_compute; reflexivity|].
  destruct (completion_freezes_capture sin_at_zero cos_at_zero rgb565 completeState
              [frameAt 60; frameAt 120] ltac:(vm_compute; reflexivity))
    as (Hc & _ & _ & _).
  split; [exact Hc | vm_compute; reflexivity].
Defined.

Lemma survivors_within_margin_witness :
  let st' := flockingStep sin_at_zero cos_at_zero strayState 60 (frameAt 60) in
  let bird := nth 0 (flock st') (birdAt F32.zero F32.zero) in
  length (flock st') = 1%nat
  /\ (In bird (flock st')
      \/ In bird (flock (run sin_at_zero cos_at_zero rgb565 0 [])))
  /\ flownOff bird = false
  /\ vx (position bird) <> F32.of_Z (-30)
  /\ (nanPosition bird = true \/ withinMargin bird = true).
Proof.
  cbn zeta. split; [vm_compute; reflexivity|].
  split; [left; vm_compute; left; reflexivity|].
  apply (survivors_within_margin sin_at_zero cos_at_zero rgb565 strayState 60
           (frameAt 60) 0 []).
  left. vm_compute. left. reflexivity.
Defined.

Lemma margin_edge_survives_witness :
  let bird := birdAt (F32.of_Z (-25)) (F32.of_Z 57) in
  In bird [birdAt (F32.of_Z (-26)) (F32.of_Z 0); bird]
  /\ onMarginEdge bird
  /\ flownOff bird = false
  /\ In bird (removeFlownOff [birdAt (F32.of_Z (-26)) (F32.of_Z 0); bird])
  /\ removeFlownOff [birdAt (F32.of_Z (-26)) (F32.of_Z 0); bird] = [bird].
Proof.
  cbn zeta.
  assert (Hin : In (birdAt (F32.of_Z (-25)) (F32.of_Z 57))
                  [birdAt (F32.of_Z (-26)) (F32.of_Z 0);
                   birdAt (F32.of_Z (-25)) (F32.of_Z 57)]) by (right; left; reflexivity).
  assert (Hedge : onMarginEdge (birdAt (F32.of_Z (-25)) (F32.of_Z 57))).
  { split; [vm_compute; reflexivity | left; reflexivity]. }
  split; [exact Hin|]. split; [exact Hedge|].
  destruct (margin_edge_survives _ _ Hin Hedge) as [Hoff Hkeep].
  split; [exact Hoff|]. split; [exact Hkeep | vm_compute; reflexivity].
Defined.

Lemma wave_size_is_min_50_remaining_witness :
  Z.of_nat (size (targetPixels threeLeftState)) < 2 ^ 31
  /\ Z.of_nat (size (capturedPixels threeLeftState)) < 2 ^ 31
  /\ spawnDue threeLeftState 3100 (remainingLeds threeLeftState) = true
  /\ exists newFlock,
       flock (spawnBlock threeLeftState 3100 (fun _ => 0))
       = flock threeLeftState ++ newFlock
       /\ Z.of_nat (length newFlock) = 3.
Proof.
  assert (Ht : Z.of_nat (size (targetPixels threeLeftState)) < 2 ^ 31)
    by (vm_compute; reflexivity).
  assert (Hc : Z.of_nat (size (capturedPixels threeLeftState)) < 2 ^ 31)
    by (vm_compute; reflexivity).
  assert (Hd : spawnDue threeLeftState 3100 (remainingLeds threeLeftState) = true)
    by (vm_compute; reflexivity).
  split; [exact Ht|]. split; [exact Hc|]. split; [exact Hd|].
  destruct (wave_size_is_min_50_remaining threeLeftState 3100 (fun _ => 0) Ht Hc Hd)
    as (newFlock & Hf & Hl).
  exists newFlock. split; [exact Hf|]. rewrite Hl. vm_compute. reflexivity.
Defined.



Lemma onscreen_bird_rounds_off_grid_witness :
  let bird := birdAt (F32.lit 255 4) (F32.of_Z 10) in
  F32.valid (vx (position bird)) = true
  /\ F32.valid (vy (position bird)) = true
  /\ isOnScreen bird = true
  /\ (F32.leb (F32.lit 127 2) (vx (position bird)) = true
      \/ F32.leb (F32.lit 63 2) (vy (position bird)) = true)
  /\ getPixelPos bird = Some (mkPosition 64 10)
  /\ exists p,
       getPixelPos bird = Some p
       /\ (px p = WIDTH \/ py p = HEIGHT)
       /\ lightLed {[ mkPosition 64 10 ]} ∅ bird = {[ p ]} ∪ ∅
       /\ drawBird rgb565 (F32.of_Z 1) (0%nat, bird)
          = Some [DrawPixel 64 10 5753].
Proof.
  cbn zeta. set (bird := birdAt (F32.lit 255 4) (F32.of_Z 10)).
  assert (Hx : F32.valid (vx (position bird)) = true) by (vm_compute; reflexivity).
  assert (Hy : F32.valid (vy (position bird)) = true) by (vm_compute; reflexivity).
  assert (Hon : isOnScreen bird = true) by (vm_compute; reflexivity).
  assert (He : F32.leb (F32.lit 127 2) (vx (position bird)) = true
               \/ F32.leb (F32.lit 63 2) (vy (position bird)) = true)
    by (left; vm_compute; reflexivity).
  split; [exact Hx|]. split; [exact Hy|]. split; [exact Hon|]. split; [exact He|].
  assert (Hp : getPixelPos bird = Some (mkPosition 64 10)) by (vm_compute; reflexivity).
  split; [exact Hp|].
  destruct (onscreen_bird_rounds_off_grid rgb565 {[ mkPosition 64 10 ]} ∅ (F32.of_Z 1)
              0%nat bird Hx Hy Hon He) as (p & Ep & _ & _ & Hoff & Hl & Hd).
  exists p. split; [exact Ep|]. split; [exact Hoff|].
  rewrite Hp in Ep. injection Ep as <-.
  split; [rewrite Hl; vm_compute; reflexivity | vm_compute; reflexivity].
Defined.

Lemma coincident_birds_exert_no_force_witness :
  let self := birdAt (F32.of_Z 5) (F32.of_Z 15) in
  finitePosition self = true
  /\ Forall (fun other => position other = position self) [self; self]
  /\ separationRule self [self; self] = Vec.zero
  /\ attractionRule self (Some (position self)) = Vec.zero.
Proof.
  cbn zeta. set (self := birdAt (F32.of_Z 5) (F32.of_Z 15)).
  assert (Hf : finitePosition self = true) by (vm_compute; reflexivity).
  assert (Hall : Forall (fun other => position other = position self) [self; self])
    by (repeat constructor).
  split; [exact Hf|]. split; [exact Hall|].
  destruct (coincident_birds_exert_no_force self [self; self] Hf Hall) as (Hs & Ha & _).
  split; [exact Hs | exact Ha].
Defined.

Lemma lone_bird_only_flaps_witness :
  let self := birdAt (F32.of_Z 5) (F32.of_Z 15) in
  let birds := [self; birdAt (F32.of_Z 40) (F32.of_Z 20)] in
  alone self (others 0 birds)
  /\ F32.leb (separationRadius self) (F32.of_Z 12) = true
  /\ steeredVelocity sin_at_zero cos_at_zero birds 0 self None 0
     = Vec.add (velocity self) (flap sin_at_zero cos_at_zero self 0)
  /\ steeredVelocity sin_at_zero cos_at_zero birds 0 self None 0
     = mkVector2D F32.zero (F32.lit 3 100).
Proof.
  cbn zeta. set (self := birdAt (F32.of_Z 5) (F32.of_Z 15)).
  set (birds := [self; birdAt (F32.of_Z 40) (F32.of_Z 20)]).
  assert (Hal : alone self (others 0 birds)).
  { change (alone self [birdAt (F32.of_Z 40) (F32.of_Z 20)]).
    constructor; [vm_compute; reflexivity | constructor]. }
  assert (Hr : F32.leb (separationRadius self) (F32.of_Z 12) = true)
    by (vm_compute; reflexivity).
  split; [exact Hal|]. split; [exact Hr|].
  destruct (lone_bird_only_flaps sin_at_zero cos_at_zero birds 0 self 0 Hal Hr)
    as [_ Hv].
  split; [apply Hv; reflexivity | vm_compute; reflexivity].
Defined.

Lemma frame_within_50ms_is_noop_witness :
  let st := fst (loop sin_at_zero cos_at_zero rgb565 threeLeftState (frameAt 60)) in
  (u32 (u32 (now (frameAt 60)) - lastUpdate threeLeftState) <? 50) = false
  /\ (u32 (u32 (now (frameAt 100)) - u32 (now (frameAt 60))) <? 50) = true
  /\ lastUpdate st = 60
  /\ loop sin_at_zero cos_at_zero rgb565 st (frameAt 100) = (st, Some []).
Proof.
  cbn zeta.
  assert (H1 : (u32 (u32 (now (frameAt 60)) - lastUpdate threeLeftState) <? 50) = false)
    by (vm_compute; reflexivity).
  assert (H2 : (u32 (u32 (now (frameAt 100)) - u32 (now (frameAt 60))) <? 50) = true)
    by (vm_compute; reflexivity).
  split; [exact H1|]. split; [exact H2|]. split; [vm_compute; reflexivity|].
  exact (frame_within_50ms_is_noop sin_at_zero cos_at_zero rgb565 threeLeftState
           (frameAt 60) (frameAt 100) H1 H2).
Defined.

Lemma captured_pixels_on_text_area_witness :
  let p := mkPosition 5 15 in
  targetPixels maskState = getThemeParkWaitsPixels
  /\ capturedPixels maskState ⊆ targetPixels maskState
  /\ (p ∈ capturedPixels (play sin_at_zero cos_at_zero rgb565 maskState [frameAt 60]))
  /\ 4 <= px p <= 59 /\ 3 <= py p <= 30 /\ 0 <= px p < WIDTH /\ 0 <= py p < HEIGHT.
Proof.
  cbn zeta.
  assert (Ht : targetPixels maskState = getThemeParkWaitsPixels) by reflexivity.
  assert (Hc : capturedPixels maskState ⊆ targetPixels maskState).
  { apply (bool_decide_unpack _). vm_compute. exact I. }
  assert (Hp : mkPosition 5 15
               ∈ capturedPixels (play sin_at_zero cos_at_zero rgb565 maskState [frameAt 60])).
  { apply (bool_decide_unpack _). vm_compute. exact I. }
  split; [exact Ht|]. split; [exact Hc|]. split; [exact Hp|].
  exact (captured_pixels_on_text_area sin_at_zero cos_at_zero rgb565 maskState
           [frameAt 60] (mkPosition 5 15) Ht Hc Hp).
Defined.

Lemma dark_for_three_seconds_witness :
  let st := run sin_at_zero cos_at_zero rgb565 0 [frameAt 60; frameAt 2000] in
  Forall (earlyFrame 0) [frameAt 60; frameAt 2000]
  /\ earlyFrame 0 (frameAt 3000)
  /\ flock st = []
  /\ capturedPixels st = ∅
  /\ snd (loop sin_at_zero cos_at_zero rgb565 st (frameAt 3000))
     = Some [FillScreen 0; Show].
Proof.
  cbn zeta.
  assert (Hfs : Forall (earlyFrame 0) [frameAt 60; frameAt 2000])
    by (repeat constructor; vm_compute; discriminate).
  assert (Hf : earlyFrame 0 (frameAt 3000)) by (vm_compute; discriminate).
  split; [exact Hfs|]. split; [exact Hf|].
  destruct (dark_for_three_seconds sin_at_zero cos_at_zero rgb565 0
              [frameAt 60; frameAt 2000] (frameAt 3000) Hfs Hf) as (Hfl & Hc & _ & _).
  split; [exact Hfl|]. split; [exact Hc|]. vm_compute. reflexivity.
Defined.

Lemma drawText_draws_each_pixel_once_witness :
  let captured : gset Position := {[ mkPosition 5 3; mkPosition 4 3 ]} in
  let calls := [DrawPixel 4 3 34784; DrawPixel 5 3 32736] in
  drawText rgb565 (F32.of_Z 1) captured = Some calls
  /\ Forall2 (fun pixel call => drawnAt call = Some pixel) (inOrder captured) calls
  /\ length calls = size captured
  /\ inOrder captured = [mkPosition 4 3; mkPosition 5 3].
Proof.
  cbn zeta.
  assert (Hd : drawText rgb565 (F32.of_Z 1) {[ mkPosition 5 3; mkPosition 4 3 ]}
               = Some [DrawPixel 4 3 34784; DrawPixel 5 3 32736])
    by (vm_compute; reflexivity).
  split; [exact Hd|].
  destruct (drawText_draws_each_pixel_once rgb565 (F32.of_Z 1)
              {[ mkPosition 5 3; mkPosition 4 3 ]} _ Hd) as (Hall & Hlen & _).
  split; [exact Hall|]. split; [exact Hlen | vm_compute; reflexivity].
Defined.

Lemma drawBirds_draws_onscreen_birds_witness :
  let calls := [DrawPixel 10 10 5753; DrawPixel 64 31 14521] in
  Forall (fun bird => validPosition bird = true) threeBirds
  /\ drawBirds rgb565 (F32.of_Z 1) threeBirds = Some calls
  /\ Forall2 (fun bird call => drawnAt call = getPixelPos bird)
             (List.filter isOnScreen threeBirds) calls
  /\ length (List.filter isOnScreen threeBirds) = 2%nat.
Proof.
  cbn zeta.
  assert (Hv : Forall (fun bird => validPosition bird = true) threeBirds)
    by (repeat constructor; vm_compute; reflexivity).
  assert (Hd : drawBirds rgb565 (F32.of_Z 1) threeBirds
               = Some [DrawPixel 10 10 5753; DrawPixel 64 31 14521])
    by (vm_compute; reflexivity).
  split; [exact Hv|]. split; [exact Hd|].
  destruct (drawBirds_draws_onscreen_birds rgb565 (F32.of_Z 1) threeBirds _ Hv Hd)
    as [Hall _].
  split; [exact Hall | vm_compute; reflexivity].
Defined.

Lemma spawned_birds_fly_inward_witness :
  let birds := fst (createFlockFromDirection 10 "left" (fun _ => 0)) in
  let bird := nth 9 birds (birdAt F32.zero F32.zero) in
  birds !! 9%nat = Some bird
  /\ flightSpeedOk "left" (velocity bird) = true
  /\ velocity bird = mkVector2D (F32.lit 16 10) (F32.lit (-4) 10).
Proof.
  cbn zeta.
  assert (Hb : fst (createFlockFromDirection 10 "left" (fun _ => 0)) !! 9%nat
               = Some (nth 9 (fst (createFlockFromDirection 10 "left" (fun _ => 0)))
                         (birdAt F32.zero F32.zero)))
    by (vm_compute; reflexivity).
  split; [exact Hb|].
  split; [exact (spawned_birds_fly_inward 10 "left" (fun _ => 0) 9 _ Hb)
         | vm_compute; reflexivity].
Defined.

Lemma wave_starts_off_screen_witness :
  let birds := fst (createFlockFromDirection 50 "top" (fun _ => 0)) in
  let bird := nth 31 birds (birdAt F32.zero F32.zero) in
  50 <= 50
  /\ startsOutside "top" (Z.of_nat 31) = true
  /\ birds !! 31%nat = Some bird
  /\ isOnScreen bird = false
  /\ position bird = mkVector2D (F32.of_Z 37) (F32.of_Z (-2)).
Proof.
  cbn zeta.
  assert (Hn : 50 <= 50) by lia.
  assert (Hs : startsOutside "top" (Z.of_nat 31) = true) by (vm_compute; reflexivity).
  assert (Hb : fst (createFlockFromDirection 50 "top" (fun _ => 0)) !! 31%nat
               = Some (nth 31 (fst (createFlockFromDirection 50 "top" (fun _ => 0)))
                         (birdAt F32.zero F32.zero)))
    by (vm_compute; reflexivity).
  split; [exact Hn|]. split; [exact Hs|]. split; [exact Hb|].
  split; [exact (wave_starts_off_screen 50 "top" (fun _ => 0) 31 _ Hn Hs Hb)
         | vm_compute; reflexivity].
Defined.

Lemma top_wave_back_rows_start_on_screen_witness :
  let birds := fst (createFlockFromDirection 50 "top" (fun _ => 0)) in
  let bird := nth 32 birds (birdAt F32.zero F32.zero) in
  50 <= 50
  /\ (32 <= 32)%nat
  /\ birds !! 32%nat = Some bird
  /\ isOnScreen bird = true
  /\ position bird = mkVector2D (F32.of_Z 23) (F32.of_Z 1).
Proof.
  cbn zeta.
  assert (Hn : 50 <= 50) by lia.
  assert (Hi : (32 <= 32)%nat) by lia.
  assert (Hb : fst (createFlockFromDirection 50 "top" (fun _ => 0)) !! 32%nat
               = Some (nth 32 (fst (createFlockFromDirection 50 "top" (fun _ => 0)))
                         (birdAt F32.zero F32.zero)))
    by (vm_compute; reflexivity).
  split; [exact Hn|]. split; [exact Hi|]. split; [exact Hb|].
  split; [exact (top_wave_back_rows_start_on_screen 50 (fun _ => 0) 32 _ Hn Hi Hb)
         | vm_compute; reflexivity].
Defined.

Lemma bottom_wave_last_row_is_discarded_witness :
  let birds := fst (createFlockFromDirection 50 "bottom" (fun _ => 0)) in
  let bird := nth 49 birds (birdAt F32.zero F32.zero) in
  (48 <= 49 < 56)%nat
  /\ birds !! 49%nat = Some bird
  /\ flownOff bird = true
  /\ removeFlownOff [bird] = []
  /\ position bird = mkVector2D (F32.of_Z 25) (F32.of_Z 59).
Proof.
  cbn zeta.
  assert (Hi : (48 <= 49 < 56)%nat) by lia.
  assert (Hb : fst (createFlockFromDirection 50 "bottom" (fun _ => 0)) !! 49%nat
               = Some (nth 49 (fst (createFlockFromDirection 50 "bottom" (fun _ => 0)))
                         (birdAt F32.zero F32.zero)))
    by (vm_compute; reflexivity).
  split; [exact Hi|]. split; [exact Hb|].
  destruct (bottom_wave_last_row_is_discarded 50 (fun _ => 0) 49 _ Hi Hb) as [Hf Hr].
  split; [exact Hf|]. split; [exact Hr | vm_compute; reflexivity].
Defined.
